(** * external-lb: the reconciliation loop of [main.go]

    A shallow embedding of the polling loop of [func main] (main.go,
    lines 90-154): one iteration of [for range ticker.C] is the function
    [tick], which threads the three variables the loop mutates
    ([version], [lastUpdated], [metadataLBConfigsCached]) and records the
    calls made to the collaborators (metadata client, provider, Cattle
    client) and to the logger as a trace of events. The start of the
    process, [setEnv] and the lines of [main] before the loop, is
    [mainStart]. *)

From Stdlib Require Import ZArith QArith Bool Ascii String.
From stdpp Require Import gmap strings list fin_maps.

Close Scope Q_scope.
Open Scope string_scope.
Open Scope list_scope.

(** ** Go values *)

(** A Go slice is either [nil] or a (possibly empty) sequence;
    [reflect.DeepEqual] tells the two apart, [range] and [len] do not. *)
Inductive slice (A : Type) : Type :=
  | NilSlice
  | MkSlice (elems : list A).

Arguments NilSlice {A}.

Arguments MkSlice {A} elems.

Definition elements_of {A} (s : slice A) : list A :=
  match s with
  | NilSlice => []
  | MkSlice l => l
  end.

(** A Go map with string keys is either [nil] or a finite map. *)
Inductive gomap (V : Type) : Type :=
  | NilMap
  | MkMap (m : gmap string V).

Arguments NilMap {V}.

Arguments MkMap {V} m.

Definition entries_of {V} (m : gomap V) : gmap string V :=
  match m with
  | NilMap => ∅
  | MkMap g => g
  end.

(** Modelled from the spec: the types of package [model], which is not
    part of the sources at hand. The loop reads [config.Frontends],
    [fe.TargetPools] and [tp.Name] (main.go, lines 136-139); the spec's
    data model lists exactly these fields. *)
Record TargetPool : Type := { Name : string }.

Record Frontend : Type := { TargetPools : slice TargetPool }.

Record LBConfig : Type := { Frontends : slice Frontend }.

(** [map[string]model.LBConfig]: snapshots, the cache and the provider's
    outcome all have this type. *)
Definition LBConfigs : Type := gomap LBConfig.

(** ** [reflect.DeepEqual] on these types

    Strings are equal when their bytes are; structs when their fields
    are deeply equal; slices when both are nil or both are not, have the
    same length and deeply equal elements position by position; maps
    when both are nil or both are not, have the same length and every
    key of the first maps to a deeply equal value in the second. *)

Definition deepEqualString (a b : string) : bool := bool_decide (a = b).

Fixpoint deepEqualList {A} (eq : A -> A -> bool) (l1 l2 : list A) : bool :=
  match l1, l2 with
  | [], [] => true
  | x :: l1', y :: l2' => eq x y && deepEqualList eq l1' l2'
  | _, _ => false
  end.

Definition deepEqualSlice {A} (eq : A -> A -> bool) (s1 s2 : slice A) : bool :=
  match s1, s2 with
  | NilSlice, NilSlice => true
  | MkSlice l1, MkSlice l2 => deepEqualList eq l1 l2
  | _, _ => false
  end.

Definition deepEqualTargetPool (a b : TargetPool) : bool :=
  deepEqualString (Name a) (Name b).

Definition deepEqualFrontend (a b : Frontend) : bool :=
  deepEqualSlice deepEqualTargetPool (TargetPools a) (TargetPools b).

Definition deepEqualLBConfig (a b : LBConfig) : bool :=
  deepEqualSlice deepEqualFrontend (Frontends a) (Frontends b).

Definition deepEqualMap {V} (eq : V -> V -> bool) (a b : gomap V) : bool :=
  match a, b with
  | NilMap, NilMap => true
  | MkMap m1, MkMap m2 =>
      bool_decide (size m1 = size m2)
      && forallb (fun kv => match m2 !! kv.1 with
                            | Some v' => eq kv.2 v'
                            | None => false
                            end) (map_to_list m1)
  | _, _ => false
  end.

Definition DeepEqual (a b : LBConfigs) : bool :=
  deepEqualMap deepEqualLBConfig a b.

(** ** [strings.Split] with a one-byte separator

    [Split s sep] cuts [s] at every occurrence of the byte [sep]; the
    result has one more element than [s] has separators, so it is never
    empty. [cur] holds the bytes of the current segment, last first. *)
Fixpoint splitFrom (sep : ascii) (cur : list ascii) (s : string) : list string :=
  match s with
  | EmptyString => [string_of_list_ascii (rev cur)]
  | String c s' =>
      if bool_decide (c = sep)
      then string_of_list_ascii (rev cur) :: splitFrom sep [] s'
      else splitFrom sep (c :: cur) s'
  end.

Definition Split (s : string) (sep : ascii) : list string := splitFrom sep [] s.

Definition delimiter : ascii := "_"%char.

(** ** Package [time]

    [time.Time] is represented by its reading in nanoseconds and
    [time.Duration] is an int64 count of nanoseconds. [Time.Sub]
    saturates at the ends of the int64 range. *)
Definition Time : Type := Z.

Definition Duration : Type := Z.

Definition Minute : Duration := (60 * 1000000000)%Z.

Definition minDuration : Duration := (- 2 ^ 63)%Z.

Definition maxDuration : Duration := (2 ^ 63 - 1)%Z.

Definition Sub (t u : Time) : Duration :=
  if (t - u <? minDuration)%Z then minDuration
  else if (maxDuration <? t - u)%Z then maxDuration
  else (t - u)%Z.

(** [time.Since(t)] is [time.Now().Sub(t)]; [now] is the clock reading. *)
Definition Since (now t : Time) : Duration := Sub now t.

(** [Duration.Minutes] is [float64(d / Minute) + float64(d % Minute) / 6e10],
    with Go's truncating [/] and [%]. The value is kept as an exact
    rational: the loop only compares it with the integer constant
    [forceUpdateInterval], both conversions are exact (the operands are
    below 2^53), and rounding to nearest is monotone and fixes integers,
    so the float comparison and the exact one agree. *)
Definition Minutes (d : Duration) : Q :=
  Qplus (inject_Z (Z.quot d Minute)) (Qmake (Z.rem d Minute) 60000000000).

(** ** Constants and variables of [main.go] *)

Definition defaultPollInterval : Z := 1000%Z.

Definition forceUpdateInterval : Z := 1%Z.

(** The variables the loop assigns: the locals [version] and
    [lastUpdated] of [main] and the package variable
    [metadataLBConfigsCached]. *)
Record LoopState : Type := {
  version : string;
  lastUpdated : Time;
  metadataLBConfigsCached : LBConfigs
}.

(** Lines 90-91 and 32: [version := "init"], [lastUpdated := time.Now()],
    [metadataLBConfigsCached = make(map[string]model.LBConfig)]. *)
Definition initState (now : Time) : LoopState :=
  {| version := "init"; lastUpdated := now; metadataLBConfigsCached := MkMap ∅ |}.

(** ** Collaborators

    The metadata client, the provider dispatch
    [UpdateProviderLBConfigs] and the Cattle client are outside
    [main.go]; what they answer during one tick is given by a [World].
    A Go [(value, error)] result whose value is only read when the error
    is nil is a [result]; [UpdateProviderLBConfigs] returns both parts
    and the loop reads both. The answer of [UpdateServiceFqdn] only
    decides whether line 142 logs. The collaborators are taken to return
    maps of their own, which nothing else writes to afterwards. *)
Definition error : Type := string.

Inductive result (A : Type) : Type :=
  | Ok (a : A)
  | Err (e : error).

Arguments Ok {A} a.

Arguments Err {A} e.

(** The order in which one [range] statement visits the entries of a
    map: every entry once, in an order the language leaves open. *)
Record RangeOrder : Type := {
  rangeOver : gmap string LBConfig -> list (string * LBConfig);
  rangeOver_perm : forall m, rangeOver m ≡ₚ map_to_list m
}.

Record World : Type := {
  GetVersion : result string;
  nowSince : Time;
  GetMetadataLBConfigs : result LBConfigs;
  UpdateProviderLBConfigs : LBConfigs -> LBConfigs * option error;
  rangeOrder : RangeOrder;
  UpdateServiceFqdn : string -> string -> string -> option error;
  nowFinal : Time
}.

(** ** Observable events *)

Inductive logline : Type :=
  | FailedGetVersion (e : error)
  | VersionChanged (old new : string)
  | ExecutingForceUpdate
  | FailedGetLBConfigs (e : error)
  | LBConfigsFromMetadata (cfgs : LBConfigs)
  | FailedUpdateProvider (e : error)
  | FailedUpdateServiceFqdn (e : error)
  | LBConfigsDidNotChange.

Inductive event : Type :=
  | CallGetVersion
  | CallGetMetadataLBConfigs
  | CallUpdateProviderLBConfigs (cfgs : LBConfigs)
  | CallUpdateServiceFqdn (serviceName stackName fqdn : string)
  | Errorf (l : logline)
  | Debugf (l : logline).

Definition trace : Type := list event.

Definition providerCalls (tr : trace) : list LBConfigs :=
  omap (fun e => match e with
                 | CallUpdateProviderLBConfigs c => Some c
                 | _ => None
                 end) tr.

Definition writerCalls (tr : trace) : list (string * string * string) :=
  omap (fun e => match e with
                 | CallUpdateServiceFqdn a b f => Some (a, b, f)
                 | _ => None
                 end) tr.

Definition isSnapshotFetch (e : event) : bool :=
  match e with
  | CallGetMetadataLBConfigs => true
  | _ => false
  end.

Definition snapshotFetches (tr : trace) : nat :=
  length (List.filter isSnapshotFetch tr).

(** ** Running code: a trace, and a value unless the goroutine panicked

    A computation yields the events it produced and either its value or
    nothing, when an index-out-of-range panic ended it (the panic is not
    recovered anywhere, so it ends the process). *)
Definition M (A : Type) : Type := trace * option A.

Definition ret {A} (a : A) : M A := ([], Some a).

Definition bind {A B} (m : M A) (f : A -> M B) : M B :=
  match m with
  | (tr, Some a) => let '(tr', b) := f a in (tr ++ tr', b)
  | (tr, None) => (tr, None)
  end.

Definition emit (e : event) : M unit := ([e], Some tt).

Definition panic {A} : M A := ([], None).

Notation "x <- m ;; k" := (bind m (fun x => k))
  (at level 100, m at next level, right associativity).

Notation "m ;;; k" := (bind m (fun _ => k))
  (at level 100, right associativity).

(** ** The loop body *)

(** Line 106: [time.Since(lastUpdated).Minutes() >= forceUpdateInterval]. *)
Definition forceDue (now last : Time) : bool :=
  Qle_bool (inject_Z forceUpdateInterval) (Minutes (Since now last)).

(** Lines 97-111: the version check. Yields the new value of [version]
    and the flags [update] and [updateForced]. *)
Definition checkVersion (w : World) (st : LoopState) : M (string * bool * bool) :=
  emit CallGetVersion ;;;
  match GetVersion w with
  | Err e =>
      emit (Errorf (FailedGetVersion e)) ;;;
      ret (version st, false, false)
  | Ok newVersion =>
      if negb (bool_decide (version st = newVersion)) then
        emit (Debugf (VersionChanged (version st) newVersion)) ;;;
        ret (newVersion, true, false)
      else if forceDue (nowSince w) (lastUpdated st) then
        emit (Debugf ExecutingForceUpdate) ;;;
        ret (version st, false, true)
      else
        ret (version st, false, false)
  end.

(** Lines 139-143: one target pool. [parts[0]] and [parts[1]] are
    indexed without a length check; an index past the end panics. *)
Definition writeTargetPool (w : World) (fqdn : string) (tp : TargetPool) : M unit :=
  let parts := Split (Name tp) delimiter in
  match parts !! 0%nat, parts !! 1%nat with
  | Some p0, Some p1 =>
      emit (CallUpdateServiceFqdn p0 p1 fqdn) ;;;
      match UpdateServiceFqdn w p0 p1 fqdn with
      | Some e => emit (Errorf (FailedUpdateServiceFqdn e))
      | None => ret tt
      end
  | _, _ => panic
  end.

(** A [for ... range] over a sequence: the body runs on each element in
    turn, and a panic ends the loop. *)
Fixpoint forRange {A} (body : A -> M unit) (l : list A) : M unit :=
  match l with
  | [] => ret tt
  | x :: l' => body x ;;; forRange body l'
  end.

(** Lines 135-146: the write-back loops. *)
Definition writeBack (w : World) (updatedFqdn : LBConfigs) : M unit :=
  forRange (fun kv : string * LBConfig =>
    let '(fqdn, config) := kv in
    forRange (fun fe : Frontend =>
      forRange (writeTargetPool w fqdn) (elements_of (TargetPools fe)))
      (elements_of (Frontends config)))
    (rangeOver (rangeOrder w) (entries_of updatedFqdn)).

(** Lines 96-154: one iteration of [for range ticker.C]. *)
Definition tick (w : World) (st : LoopState) : M LoopState :=
  checked <- checkVersion w st ;;
  let '(version', update, updateForced) := checked in
  let st1 := {| version := version';
                lastUpdated := lastUpdated st;
                metadataLBConfigsCached := metadataLBConfigsCached st |} in
  if update || updateForced then
    emit CallGetMetadataLBConfigs ;;;
    match GetMetadataLBConfigs w with
    | Err e =>
        emit (Errorf (FailedGetLBConfigs e)) ;;;
        ret st1
    | Ok metadataLBConfigs =>
        emit (Debugf (LBConfigsFromMetadata metadataLBConfigs)) ;;;
        if negb (DeepEqual metadataLBConfigs (metadataLBConfigsCached st1))
           || updateForced then
          emit (CallUpdateProviderLBConfigs metadataLBConfigs) ;;;
          let '(updatedFqdn, err) := UpdateProviderLBConfigs w metadataLBConfigs in
          match err with
          | Some e => emit (Errorf (FailedUpdateProvider e))
          | None => ret tt
          end ;;;
          writeBack w updatedFqdn ;;;
          ret {| version := version';
                 lastUpdated := nowFinal w;
                 metadataLBConfigsCached := metadataLBConfigs |}
        else
          emit (Debugf LBConfigsDidNotChange) ;;;
          ret st1
    end
  else
    ret st1.

(** The loop over the ticks of a finite prefix of [ticker.C]; a panic
    ends the process, so later ticks do not run. *)
Fixpoint runTicks (ws : list World) (st : LoopState) : M LoopState :=
  match ws with
  | [] => ret st
  | w :: ws' => st' <- tick w st ;; runTicks ws' st'
  end.

(** ** Derived notions used in the statements *)

(** Trace and final state of a run; [None] as final state is a panic. *)
Definition traceOf {A} (m : M A) : trace := m.1.

Definition stateOf {A} (m : M A) : option A := m.2.

(** Whether a run reached its end, that is, did not panic. *)
Definition completes {A} (m : M A) : bool :=
  match stateOf m with
  | Some _ => true
  | None => false
  end.

(** Whether a trace contains a call of the provider dispatch. *)
Definition dispatched (tr : trace) : bool :=
  match providerCalls tr with
  | [] => false
  | _ :: _ => true
  end.

(** All target pools of a configuration, in the order the two inner
    loops visit them. *)
Definition poolsOf (config : LBConfig) : list TargetPool :=
  flat_map (fun fe => elements_of (TargetPools fe)) (elements_of (Frontends config)).

(** The arguments of the call line 140 makes for a pool whose name has
    at least two segments. *)
Definition writeOf (fqdn : string) (tp : TargetPool) : string * string * string :=
  let parts := Split (Name tp) delimiter in
  (nth 0 parts "", nth 1 parts "", fqdn).

Definition allWrites (entries : list (string * LBConfig)) : list (string * string * string) :=
  flat_map (fun kv => map (writeOf kv.1) (poolsOf kv.2)) entries.

(** A name can be indexed at 0 and 1 when it has a delimiter. *)
Definition hasTwoSegments (tp : TargetPool) : bool :=
  (2 <=? length (Split (Name tp) delimiter))%nat.

Definition indexable (updatedFqdn : LBConfigs) : bool :=
  forallb (fun kv : string * LBConfig => forallb hasTwoSegments (poolsOf kv.2))
          (map_to_list (entries_of updatedFqdn)).


(** The versions of the source change on every tick of [ws] (starting
    from the marker [prev]) while every fetched snapshot is deeply equal
    to [cache]. *)
Fixpoint flapping (prev : string) (cache : LBConfigs) (ws : list World) : bool :=
  match ws with
  | [] => true
  | w :: ws' =>
      match GetVersion w, GetMetadataLBConfigs w with
      | Ok v, Ok s =>
          negb (bool_decide (prev = v)) && DeepEqual s cache && flapping v cache ws'
      | _, _ => false
      end
  end.

(** A trace without provider call and without snapshot fetch. *)
Definition quiet (tr : trace) : Prop :=
  providerCalls tr = [] /\ snapshotFetches tr = 0%nat.

(** The state after the version check: only [version] may have changed. *)
Definition afterCheck (st : LoopState) (v : string) : LoopState :=
  {| version := v;
     lastUpdated := lastUpdated st;
     metadataLBConfigsCached := metadataLBConfigsCached st |}.

(** ** Example inputs *)

Definition mapOrder : RangeOrder :=
  {| rangeOver := map_to_list; rangeOver_perm := fun m => Permutation_refl _ |}.

Definition pool (name : string) : TargetPool := {| Name := name |}.

Definition oneFrontend (names : list string) : LBConfig :=
  {| Frontends := MkSlice [ {| TargetPools := MkSlice (map pool names) |} ] |}.

Definition snapshot1 : LBConfigs :=
  MkMap {[ "lb1" := oneFrontend ["svcA_stackX_envY"] ]}.

Definition outcome1 : LBConfigs :=
  MkMap {[ "lb1.example.com" := oneFrontend ["svcA_stackX_envY"] ]}.

Definition snapshot2 : LBConfigs :=
  MkMap {[ "lb1" := oneFrontend ["svcA_stackX_envY"; "svcB_stackX_envY"] ]}.

Definition outcome2 : LBConfigs :=
  MkMap {[ "lb1.example.com" :=
             oneFrontend ["svcA_stackX_envY"; "svcB_stackX"; "svcC_stackX_envY_extra"] ]}.

Definition outcome3 : LBConfigs :=
  MkMap {[ "lb1.example.com" := oneFrontend ["svcA"; "svcB_stackX_envY"] ]}.

Definition second : Z := 1000000000%Z.

Definition worldOf (ver : result string) (t : Time) (cfgs : result LBConfigs)
    (out : LBConfigs * option error) (t' : Time) : World :=
  {| GetVersion := ver;
     nowSince := t;
     GetMetadataLBConfigs := cfgs;
     UpdateProviderLBConfigs := fun _ => out;
     rangeOrder := mapOrder;
     UpdateServiceFqdn := fun _ _ _ => None;
     nowFinal := t' |}.

Definition flakyWriter (serviceName stackName fqdn : string) : option error :=
  if bool_decide (serviceName = "svcB") then Some "registry unavailable" else None.

Definition withWriter (w : World)
    (upd : string -> string -> string -> option error) : World :=
  {| GetVersion := GetVersion w;
     nowSince := nowSince w;
     GetMetadataLBConfigs := GetMetadataLBConfigs w;
     UpdateProviderLBConfigs := UpdateProviderLBConfigs w;
     rangeOrder := rangeOrder w;
     UpdateServiceFqdn := upd;
     nowFinal := nowFinal w |}.

(** The same tick with another answer of the provider dispatch. *)
Definition withProviderResult (w : World) (out : LBConfigs * option error) : World :=
  {| GetVersion := GetVersion w;
     nowSince := nowSince w;
     GetMetadataLBConfigs := GetMetadataLBConfigs w;
     UpdateProviderLBConfigs := fun _ => out;
     rangeOrder := rangeOrder w;
     UpdateServiceFqdn := UpdateServiceFqdn w;
     nowFinal := nowFinal w |}.

(** A state reached after a pass applied [snapshot1] at time 0 under
    version ["v1"]. *)
Definition settled : LoopState :=
  {| version := "v1"; lastUpdated := 0%Z; metadataLBConfigsCached := snapshot1 |}.

(** ** Summaries of a tick *)

(** The value of [version] after the checks of lines 98-104. *)
Definition nextVersion (w : World) (st : LoopState) : string :=
  match GetVersion w with
  | Ok newVersion => newVersion
  | Err _ => version st
  end.

(** The snapshot a tick hands to the provider, if it hands one: the
    conditions of lines 99-113, 116 and 127 taken together. *)
Definition shouldDispatch (w : World) (st : LoopState) : option LBConfigs :=
  match GetVersion w, GetMetadataLBConfigs w with
  | Ok newVersion, Ok s =>
      if bool_decide (version st = newVersion)
      then if forceDue (nowSince w) (lastUpdated st) then Some s else None
      else if DeepEqual s (metadataLBConfigsCached st) then None else Some s
  | _, _ => None
  end.

(** The pools of an outcome with their endpoint identifier, in the order
    the three nested loops of lines 135-137 reach them. *)
Definition flatPools (entries : list (string * LBConfig)) : list (string * TargetPool) :=
  flat_map (fun kv => map (pair kv.1) (poolsOf kv.2)) entries.

(** The longest prefix of a list whose elements all pass a test. *)
Fixpoint takeWhileb {A} (p : A -> bool) (l : list A) : list A :=
  match l with
  | [] => []
  | x :: l' => if p x then x :: takeWhileb p l' else []
  end.

Definition countByte (c : ascii) (s : string) : nat :=
  length (List.filter (fun x => bool_decide (x = c)) (list_ascii_of_string s)).

(** The version marker after a run: the last version fetched without
    error, or the initial marker when every fetch failed. *)
Definition lastVersion (prev : string) (ws : list World) : string :=
  fold_left (fun v w => match GetVersion w with
                        | Ok newVersion => newVersion
                        | Err _ => v
                        end) ws prev.


Definition isGetVersion (e : event) : bool :=
  match e with
  | CallGetVersion => true
  | _ => false
  end.

(** The same tick with another visiting order of the [range] over the
    outcome. *)
Definition withRangeOrder (w : World) (r : RangeOrder) : World :=
  {| GetVersion := GetVersion w;
     nowSince := nowSince w;
     GetMetadataLBConfigs := GetMetadataLBConfigs w;
     UpdateProviderLBConfigs := UpdateProviderLBConfigs w;
     rangeOrder := r;
     UpdateServiceFqdn := UpdateServiceFqdn w;
     nowFinal := nowFinal w |}.

(** A visiting order other than that of [map_to_list]: the reverse. *)
Definition reverseOrder : RangeOrder :=
  {| rangeOver := fun m => rev (map_to_list m);
     rangeOver_perm := fun m => Permutation_sym (Permutation_rev (map_to_list m)) |}.

(** An outcome with a pool name without delimiter between two names of
    the documented shape. *)
Definition outcome5 : LBConfigs :=
  MkMap {[ "lb1.example.com" :=
             oneFrontend ["svcA_stackX_envY"; "bad"; "svcB_stackX_envY"] ]}.

Definition outcome4 : LBConfigs :=
  MkMap (<[ "lb2.example.com" := oneFrontend ["svcC_stackY"; "svcD"; "svcE_stackY"] ]>
           {[ "lb1.example.com" := oneFrontend ["svcA_stackX_envY"; "svcB_stackX"] ]}).

(** The segments written one after the other with the separator between
    them. *)
Fixpoint joinWith (sep : ascii) (l : list string) : string :=
  match l with
  | [] => ""
  | [x] => x
  | x :: l' => x +:+ String sep (joinWith sep l')
  end.

(** ** Startup: [setEnv] and the first lines of [main]

    [strconv.Atoi] for a 64-bit [int]: an optional sign, then decimal
    digits scanned from the left; the scan stops with a syntax error at
    the first byte that is not a digit and with a range error as soon
    as the value leaves the uint64 range, and the signed value must fit
    an int64. *)
Inductive NumError : Type :=
  | ErrSyntax
  | ErrRange.

Inductive parsed : Type :=
  | Parsed (n : Z)
  | NotParsed (e : NumError).

Definition isDigit (c : ascii) : bool :=
  (48 <=? nat_of_ascii c)%nat && (nat_of_ascii c <=? 57)%nat.

Definition digitValue (c : ascii) : Z := (Z.of_nat (nat_of_ascii c) - 48)%Z.

Definition maxUint64 : Z := (2 ^ 64 - 1)%Z.

(** The loop of [ParseUint] in base 10: [n] is the value so far. *)
Fixpoint scanUint (n : Z) (s : string) : parsed :=
  match s with
  | EmptyString => Parsed n
  | String c s' =>
      if isDigit c then
        if (maxUint64 / 10 + 1 <=? n)%Z then NotParsed ErrRange
        else if (maxUint64 <? n * 10 + digitValue c)%Z then NotParsed ErrRange
        else scanUint (n * 10 + digitValue c)%Z s'
      else NotParsed ErrSyntax
  end.

Definition Atoi (s : string) : parsed :=
  match s with
  | EmptyString => NotParsed ErrSyntax
  | String c rest =>
      let neg := bool_decide (c = "-"%char) in
      let digits := if neg || bool_decide (c = "+"%char) then rest else s in
      match digits with
      | EmptyString => NotParsed ErrSyntax
      | _ =>
          match scanUint 0 digits with
          | NotParsed e => NotParsed e
          | Parsed un =>
              if negb neg && (2 ^ 63 <=? un)%Z then NotParsed ErrRange
              else if neg && (2 ^ 63 <? un)%Z then NotParsed ErrRange
              else Parsed (if neg then - un else un)%Z
          end
      end
  end.

(** What the process finds when it starts: whether [flag.Parse]
    accepts the command line and the flags it then holds, and the
    answers of the operating system and of the constructors of the
    three clients. The file and the clients themselves are opaque.
    The flags of lines 23-25 are on the default command line, whose
    error handling is [ExitOnError]: on an unknown flag, on a value
    that does not parse and on [-h], [flag.Parse] prints to the
    standard error and ends the process itself, without a line of
    logrus. *)
Record Startup : Type := {
  commandLineOk : bool;
  providerName : string;
  debug : bool;
  logFile : string;
  OpenFile : string -> result unit;
  Getenv : string -> string;
  NewMetadataClient : result unit;
  NewCattleClientFromEnvironment : result unit;
  GetProvider : string -> result unit;
  startTime : Time
}.

Inductive startEvent : Type :=
  | InfoStarting
  | FlagParse
  | FlagUsage
  | SetLevelDebug
  | CallOpenFile (name : string)
  | FatalLogFile (name : string) (e : error)
  | SetOutput (name : string)
  | SetFormatterFullTimestamp
  | CallGetenv (key : string)
  | FatalPollInterval (e : NumError)
  | InfoDefaultInterval (d : Z)
  | CallNewMetadataClient
  | FatalMetadataClient (e : error)
  | CallNewCattleClient
  | FatalCattleClient (e : error)
  | CallGetProvider (name : string)
  | FatalProvider (name : string) (e : error)
  | GoStartHealthcheck
  | CallNewTicker (d : Duration).

(** How a piece of startup code ends: it goes on with a value, the
    process exits ([logrus.Fatalf] logs and calls [os.Exit(1)];
    [flag.Parse] prints its message and calls [os.Exit] on a command
    line it rejects), or it panics. *)
Inductive ending (A : Type) : Type :=
  | Goes (a : A)
  | Exits
  | Panics.
Arguments Goes {A} a.
Arguments Exits {A}.
Arguments Panics {A}.

Definition Start (A : Type) : Type := list startEvent * ending A.

Definition goes {A} (a : A) : Start A := ([], Goes a).

Definition andThen {A B} (m : Start A) (f : A -> Start B) : Start B :=
  match m with
  | (tr, Goes a) => let '(tr', b) := f a in (tr ++ tr', b)
  | (tr, Exits) => (tr, Exits)
  | (tr, Panics) => (tr, Panics)
  end.

Definition note (e : startEvent) : Start unit := ([e], Goes tt).

Definition Fatalf {A} (e : startEvent) : Start A := ([e], Exits).

Notation "x <~ m ;; k" := (andThen m (fun x => k))
  (at level 100, m at next level, right associativity).
Notation "m ;;> k" := (andThen m (fun _ => k))
  (at level 100, right associativity).

(** Lines 35-82. The value is the variable [pollInterval]; the clients
    assigned to [m], [c] and [provider] are those of the [Startup]. *)
Definition setEnv (s : Startup) : Start Z :=
  note FlagParse ;;>
  (if commandLineOk s then goes tt else ([FlagUsage], Exits)) ;;>
  (if debug s then note SetLevelDebug else goes tt) ;;>
  (if negb (bool_decide (logFile s = "")) then
     note (CallOpenFile (logFile s)) ;;>
     match OpenFile s (logFile s) with
     | Err e => Fatalf (FatalLogFile (logFile s) e)
     | Ok _ =>
         note (SetOutput (logFile s)) ;;>
         note SetFormatterFullTimestamp
     end
   else goes tt) ;;>
  note (CallGetenv "LB_POLL_INTERVAL") ;;>
  pollInterval <~
    (let env := Getenv s "LB_POLL_INTERVAL" in
     if (0 <? String.length env)%nat then
       match Atoi env with
       | NotParsed e => Fatalf (FatalPollInterval e)
       | Parsed n => goes n
       end
     else
       note (InfoDefaultInterval defaultPollInterval) ;;>
       goes defaultPollInterval) ;;
  note CallNewMetadataClient ;;>
  match NewMetadataClient s with
  | Err e => Fatalf (FatalMetadataClient e)
  | Ok _ => goes tt
  end ;;>
  note CallNewCattleClient ;;>
  match NewCattleClientFromEnvironment s with
  | Err e => Fatalf (FatalCattleClient e)
  | Ok _ => goes tt
  end ;;>
  note (CallGetProvider (providerName s)) ;;>
  match GetProvider s (providerName s) with
  | Err e => Fatalf (FatalProvider (providerName s) e)
  | Ok _ => goes tt
  end ;;>
  goes pollInterval.

(** Arithmetic on [time.Duration] wraps around at 64 bits. *)
Definition wrap64 (z : Z) : Z := ((z + 2 ^ 63) mod 2 ^ 64 - 2 ^ 63)%Z.

Definition Millisecond : Duration := 1000000%Z.

(** [time.NewTicker] panics on an interval that is not positive. *)
Definition NewTicker (d : Duration) : Start Duration :=
  note (CallNewTicker d) ;;>
  if (d <=? 0)%Z then ([], Panics) else goes d.

(** Lines 85-94 of [main]: up to the first receive from [ticker.C]. The
    value is the period of the ticker and the state the loop starts in. *)
Definition mainStart (s : Startup) : Start (Duration * LoopState) :=
  note InfoStarting ;;>
  pollInterval <~ setEnv s ;;
  note GoStartHealthcheck ;;>
  let st := initState (startTime s) in
  period <~ NewTicker (wrap64 (pollInterval * Millisecond)) ;;
  goes (period, st).

Definition eventsOf {A} (m : Start A) : list startEvent := m.1.
Definition endOf {A} (m : Start A) : ending A := m.2.

Definition isFatal (e : startEvent) : bool :=
  match e with
  | FatalLogFile _ _ | FatalPollInterval _ | FatalMetadataClient _
  | FatalCattleClient _ | FatalProvider _ _ => true
  | _ => false
  end.

Definition isClientCall (e : startEvent) : bool :=
  match e with
  | CallNewMetadataClient | CallNewCattleClient | CallGetProvider _ => true
  | _ => false
  end.

(** The number a string of decimal digits denotes, read after [acc]. *)
Fixpoint decimalValue (acc : Z) (s : string) : Z :=
  match s with
  | EmptyString => acc
  | String c s' => decimalValue (acc * 10 + digitValue c)%Z s'
  end.

Fixpoint allDigits (s : string) : bool :=
  match s with
  | EmptyString => true
  | String c s' => isDigit c && allDigits s'
  end.

Definition startup1 (env : string) : Startup :=
  {| commandLineOk := true;
     providerName := "elbv2";
     debug := false;
     logFile := "";
     OpenFile := fun _ => Ok tt;
     Getenv := fun key => if bool_decide (key = "LB_POLL_INTERVAL") then env else "";
     NewMetadataClient := Ok tt;
     NewCattleClientFromEnvironment := Ok tt;
     GetProvider := fun _ => Ok tt;
     startTime := 0%Z |}.

(** The events of lines 140-143 for one pool whose name can be indexed:
    the call, and the error line when the call fails. *)
Definition writeEvents (w : World) (p : string * TargetPool) : trace :=
  let '(serviceName, stackName, fqdn) := writeOf p.1 p.2 in
  CallUpdateServiceFqdn serviceName stackName fqdn ::
  match UpdateServiceFqdn w serviceName stackName fqdn with
  | Some e => [Errorf (FailedUpdateServiceFqdn e)]
  | None => []
  end.

(** ** Facts about the library models *)

Lemma splitFrom_nonempty sep cur s : splitFrom sep cur s <> [].
Proof.
  revert cur. induction s as [|c s IH]; intros cur; simpl; [discriminate|].
  case_bool_decide; [discriminate | apply IH].
Qed.

Lemma Split_length_pos s sep : (1 <= length (Split s sep))%nat.
Proof.
  unfold Split. pose proof (splitFrom_nonempty sep [] s) as H.
  destruct (splitFrom sep [] s); [congruence | simpl; lia].
Qed.

Lemma Sub_ge_Minute (t u : Time) :
  (Minute <=? Sub t u)%Z = (Minute <=? t - u)%Z.
Proof.
  unfold Sub, Minute, minDuration, maxDuration.
  apply eq_iff_eq_true. rewrite !Z.leb_le.
  repeat case_match; rewrite ?Z.ltb_lt, ?Z.ltb_ge in *; lia.
Qed.

(** The comparison of line 106 in integers: the force update is due
    exactly when at least [forceUpdateInterval] whole minutes lie
    between [last] and [now]. *)
Lemma forceDue_spec (now last : Time) :
  forceDue now last = (forceUpdateInterval * Minute <=? Since now last)%Z.
Proof.
  unfold forceDue, Minutes, Qle_bool, Qplus, inject_Z, forceUpdateInterval.
  cbn [Qnum Qden]. set (d := Since now last).
  pose proof (Z.quot_rem' d Minute) as Hd.
  change (Z.pos (1 * 60000000000)) with Minute.
  apply eq_iff_eq_true. rewrite !Z.leb_le.
  clearbody d. unfold Minute in *.
  generalize dependent (Z.quot d (60 * 1000000000)).
  generalize dependent (Z.rem d (60 * 1000000000)). intros; lia.
Qed.

Lemma forceDue_elapsed (now last : Time) :
  forceDue now last = (Minute <=? now - last)%Z.
Proof.
  rewrite forceDue_spec. unfold Since, forceUpdateInterval.
  rewrite Z.mul_1_l. apply Sub_ge_Minute.
Qed.

(** [reflect.DeepEqual] on these types holds exactly for equal values of
  the model: the nil and the empty slice (or map) are different
  values, as they are for Go. *)
Section DeepEqualReflect.

Context {A : Type} (eq : A -> A -> bool).

Hypothesis eq_spec : forall a b, eq a b = true <-> a = b.

Lemma deepEqualList_spec (l1 l2 : list A) :
  deepEqualList eq l1 l2 = true <-> l1 = l2.
Proof.
  revert l2. induction l1 as [|x l1 IH]; intros [|y l2]; simpl;
    try (split; [discriminate | congruence]); [tauto|].
  rewrite andb_true_iff, eq_spec, IH. split.
  - intros [-> ->]. reflexivity.
  - intros [= -> ->]. auto.
Qed.

Lemma deepEqualSlice_spec (s1 s2 : slice A) :
  deepEqualSlice eq s1 s2 = true <-> s1 = s2.
Proof.
  destruct s1 as [|l1], s2 as [|l2]; simpl;
    try (split; [discriminate | congruence]); [tauto|].
  rewrite deepEqualList_spec. split; [intros -> | intros [= ->]]; reflexivity.
Qed.

Lemma deepEqualMap_spec (a b : gomap A) :
  deepEqualMap eq a b = true <-> a = b.
Proof.
  destruct a as [|m1], b as [|m2]; simpl;
    try (split; [discriminate | congruence]); [tauto|].
  rewrite andb_true_iff, bool_decide_eq_true, forallb_forall. split.
  - intros [Hsize Hall]. f_equal.
    apply map_subseteq_size_eq; [|lia].
    apply map_subseteq_spec. intros i x Hix.
    apply elem_of_map_to_list, list_elem_of_In in Hix.
    specialize (Hall _ Hix). simpl in Hall.
    destruct (m2 !! i) as [y|]; [|discriminate].
    apply eq_spec in Hall. congruence.
  - intros [= ->]. split; [reflexivity|].
    intros [i x] Hix. apply list_elem_of_In, elem_of_map_to_list in Hix.
    simpl. rewrite Hix. apply eq_spec. reflexivity.
Qed.

End DeepEqualReflect.

Lemma deepEqualTargetPool_spec a b : deepEqualTargetPool a b = true <-> a = b.
Proof.
  unfold deepEqualTargetPool, deepEqualString. rewrite bool_decide_eq_true.
  destruct a, b; simpl. split; congruence.
Qed.

Lemma deepEqualFrontend_spec a b : deepEqualFrontend a b = true <-> a = b.
Proof.
  unfold deepEqualFrontend.
  rewrite (deepEqualSlice_spec _ deepEqualTargetPool_spec).
  destruct a, b; simpl. split; congruence.
Qed.

Lemma deepEqualLBConfig_spec a b : deepEqualLBConfig a b = true <-> a = b.
Proof.
  unfold deepEqualLBConfig.
  rewrite (deepEqualSlice_spec _ deepEqualFrontend_spec).
  destruct a, b; simpl. split; congruence.
Qed.

Lemma DeepEqual_spec (a b : LBConfigs) : DeepEqual a b = true <-> a = b.
Proof. apply deepEqualMap_spec, deepEqualLBConfig_spec. Qed.

Lemma DeepEqual_refl (a : LBConfigs) : DeepEqual a a = true.
Proof. apply DeepEqual_spec. reflexivity. Qed.

(** ** Traces of composed runs *)

Lemma traceOf_bind {A B} (m : M A) (f : A -> M B) :
  traceOf (bind m f) =
  traceOf m ++ match stateOf m with
               | Some a => traceOf (f a)
               | None => []
               end.
Proof.
  destruct m as [tr [a|]]; unfold traceOf, stateOf; simpl.
  - destruct (f a); reflexivity.
  - symmetry; apply app_nil_r.
Qed.

Lemma stateOf_bind {A B} (m : M A) (f : A -> M B) :
  stateOf (bind m f) = match stateOf m with
                       | Some a => stateOf (f a)
                       | None => None
                       end.
Proof.
  destruct m as [tr [a|]]; unfold stateOf; simpl; [|reflexivity].
  destruct (f a); reflexivity.
Qed.

Lemma bind_returned {A B} (m : M A) (f : A -> M B) tr a :
  m = (tr, Some a) ->
  traceOf (bind m f) = tr ++ traceOf (f a) /\ stateOf (bind m f) = stateOf (f a).
Proof. intros ->. rewrite traceOf_bind, stateOf_bind. split; reflexivity. Qed.

Lemma providerCalls_app tr1 tr2 :
  providerCalls (tr1 ++ tr2) = providerCalls tr1 ++ providerCalls tr2.
Proof. apply omap_app. Qed.

Lemma writerCalls_app tr1 tr2 :
  writerCalls (tr1 ++ tr2) = writerCalls tr1 ++ writerCalls tr2.
Proof. apply omap_app. Qed.

Lemma snapshotFetches_app tr1 tr2 :
  snapshotFetches (tr1 ++ tr2) = (snapshotFetches tr1 + snapshotFetches tr2)%nat.
Proof. unfold snapshotFetches. rewrite List.filter_app, length_app. reflexivity. Qed.

(** A property of traces that holds of the empty trace and is kept by
    concatenation holds of a loop when it holds of every run of its body. *)
Lemma forRange_trace_ind {A} (P : trace -> Prop) (body : A -> M unit) l :
  P [] ->
  (forall t1 t2, P t1 -> P t2 -> P (t1 ++ t2)) ->
  (forall x, P (traceOf (body x))) ->
  P (traceOf (forRange body l)).
Proof.
  intros Hnil Happ Hbody. induction l as [|x l IH]; simpl; [exact Hnil|].
  rewrite traceOf_bind. apply Happ; [apply Hbody|].
  destruct (stateOf (body x)); [exact IH | exact Hnil].
Qed.

(** A loop reaches its end exactly when every run of its body does: it
    stops at the first element whose body panics. *)
Lemma forRange_completes_forallb {A} (body : A -> M unit) l :
  completes (forRange body l) = forallb (fun x => completes (body x)) l.
Proof.
  unfold completes. induction l as [|x l IH]; simpl; [reflexivity|].
  rewrite stateOf_bind. destruct (stateOf (body x)); [exact IH | reflexivity].
Qed.

Lemma forallb_flat_map {A B} (p : B -> bool) (f : A -> list B) l :
  forallb p (flat_map f l) = forallb (fun x => forallb p (f x)) l.
Proof.
  induction l as [|x l IH]; simpl; [reflexivity|].
  rewrite forallb_app, IH. reflexivity.
Qed.

Lemma forallb_pointwise {A} (p q : A -> bool) l :
  (forall x, p x = q x) -> forallb p l = forallb q l.
Proof.
  intros H. induction l as [|x l IH]; simpl; [reflexivity|].
  rewrite H, IH. reflexivity.
Qed.

(** ** The write-back loops *)

Lemma quiet_nil : quiet [].
Proof. split; reflexivity. Qed.

Lemma quiet_app t1 t2 : quiet t1 -> quiet t2 -> quiet (t1 ++ t2).
Proof.
  intros [Hp1 Hs1] [Hp2 Hs2]. split.
  - rewrite providerCalls_app, Hp1, Hp2. reflexivity.
  - rewrite snapshotFetches_app, Hs1, Hs2. reflexivity.
Qed.

Lemma writeTargetPool_quiet w fqdn tp : quiet (traceOf (writeTargetPool w fqdn tp)).
Proof.
  unfold writeTargetPool.
  destruct (Split (Name tp) delimiter !! 0%nat) as [p0|]; [|apply quiet_nil].
  destruct (Split (Name tp) delimiter !! 1%nat) as [p1|]; [|apply quiet_nil].
  destruct (UpdateServiceFqdn w p0 p1 fqdn); split; reflexivity.
Qed.

Lemma writeBack_quiet w updatedFqdn : quiet (traceOf (writeBack w updatedFqdn)).
Proof.
  unfold writeBack.
  apply forRange_trace_ind; [apply quiet_nil | apply quiet_app |].
  intros [fqdn config].
  apply forRange_trace_ind; [apply quiet_nil | apply quiet_app |].
  intros fe.
  apply forRange_trace_ind; [apply quiet_nil | apply quiet_app |].
  intros tp. apply writeTargetPool_quiet.
Qed.

(** One pool whose name has a delimiter: exactly one call, with the
    first two segments, whatever the Cattle client answers. *)
Lemma writeTargetPool_two_segments w fqdn tp :
  hasTwoSegments tp = true ->
  stateOf (writeTargetPool w fqdn tp) = Some tt /\
  writerCalls (traceOf (writeTargetPool w fqdn tp)) = [writeOf fqdn tp].
Proof.
  unfold hasTwoSegments, writeTargetPool, writeOf. intros H.
  apply Nat.leb_le in H.
  destruct (Split (Name tp) delimiter) as [|p0 [|p1 rest]]; simpl in H; try lia.
  simpl. destruct (UpdateServiceFqdn w p0 p1 fqdn); split; reflexivity.
Qed.

(** One pool whose name has no delimiter: the index [parts[1]] panics
    before any call is made. *)
Lemma writeTargetPool_one_segment w fqdn tp :
  hasTwoSegments tp = false ->
  writeTargetPool w fqdn tp = ([], None).
Proof.
  unfold hasTwoSegments, writeTargetPool. intros H.
  apply Nat.leb_gt in H. pose proof (Split_length_pos (Name tp) delimiter) as Hpos.
  destruct (Split (Name tp) delimiter) as [|p0 [|p1 rest]]; simpl in *; try lia.
  reflexivity.
Qed.

Lemma writePools_completes w fqdn tps :
  forallb hasTwoSegments tps = true ->
  stateOf (forRange (writeTargetPool w fqdn) tps) = Some tt /\
  writerCalls (traceOf (forRange (writeTargetPool w fqdn) tps)) = map (writeOf fqdn) tps.
Proof.
  induction tps as [|tp tps IH]; simpl; [split; reflexivity|].
  rewrite andb_true_iff. intros [Htp Htps].
  destruct (IH Htps) as [IHs IHt].
  destruct (writeTargetPool_two_segments w fqdn tp Htp) as [Hs Ht].
  rewrite stateOf_bind, traceOf_bind, writerCalls_app, Hs, Ht, IHs, IHt.
  split; reflexivity.
Qed.

Lemma writeFrontends_completes w fqdn fes :
  forallb hasTwoSegments (flat_map (fun fe => elements_of (TargetPools fe)) fes) = true ->
  let loop := forRange (fun fe : Frontend =>
                forRange (writeTargetPool w fqdn) (elements_of (TargetPools fe))) fes in
  stateOf loop = Some tt /\
  writerCalls (traceOf loop) =
    map (writeOf fqdn) (flat_map (fun fe => elements_of (TargetPools fe)) fes).
Proof.
  induction fes as [|fe fes IH]; simpl; [split; reflexivity|].
  rewrite forallb_app, andb_true_iff. intros [Hfe Hfes].
  destruct (IH Hfes) as [IHs IHt].
  destruct (writePools_completes w fqdn _ Hfe) as [Hs Ht].
  rewrite stateOf_bind, traceOf_bind, writerCalls_app, Hs, Ht, IHs, IHt, map_app.
  split; reflexivity.
Qed.

Lemma writeEntries_completes w (entries : list (string * LBConfig)) :
  forallb (fun kv : string * LBConfig => forallb hasTwoSegments (poolsOf kv.2)) entries = true ->
  let loop := forRange (fun kv : string * LBConfig =>
                let '(fqdn, config) := kv in
                forRange (fun fe : Frontend =>
                  forRange (writeTargetPool w fqdn) (elements_of (TargetPools fe)))
                  (elements_of (Frontends config))) entries in
  stateOf loop = Some tt /\ writerCalls (traceOf loop) = allWrites entries.
Proof.
  induction entries as [|[fqdn config] entries IH]; simpl; [split; reflexivity|].
  rewrite andb_true_iff. intros [Hkv Hrest].
  destruct (IH Hrest) as [IHs IHt].
  destruct (writeFrontends_completes w fqdn _ Hkv) as [Hs Ht].
  rewrite stateOf_bind, traceOf_bind, writerCalls_app, Hs, Ht, IHs, IHt.
  split; reflexivity.
Qed.

Lemma forallb_Permutation {A} (p : A -> bool) (l1 l2 : list A) :
  l1 ≡ₚ l2 -> forallb p l1 = forallb p l2.
Proof.
  induction 1 as [|x l1 l2 _ IH|x y l|l1 l2 l3 _ IH1 _ IH2]; simpl.
  - reflexivity.
  - rewrite IH. reflexivity.
  - destruct (p x), (p y); reflexivity.
  - congruence.
Qed.

(** The write-back of an outcome all of whose pool names have a
    delimiter: no panic, and one call per pool, visiting the entries in
    the order of the [range] statement. *)
Lemma writeBack_indexable w updatedFqdn :
  indexable updatedFqdn = true ->
  stateOf (writeBack w updatedFqdn) = Some tt /\
  writerCalls (traceOf (writeBack w updatedFqdn)) =
    allWrites (rangeOver (rangeOrder w) (entries_of updatedFqdn)).
Proof.
  unfold indexable, writeBack. intros H.
  apply writeEntries_completes.
  rewrite (forallb_Permutation _ _ _ (rangeOver_perm (rangeOrder w) _)). exact H.
Qed.

(** The write-back panics exactly when some pool of the outcome has a
    name without delimiter. *)
Lemma writeTargetPool_completes w fqdn tp :
  completes (writeTargetPool w fqdn tp) = hasTwoSegments tp.
Proof.
  destruct (hasTwoSegments tp) eqn:H; unfold completes.
  - destruct (writeTargetPool_two_segments w fqdn tp H) as [-> _]. reflexivity.
  - rewrite (writeTargetPool_one_segment w fqdn tp H). reflexivity.
Qed.

Lemma writeBack_completes w updatedFqdn :
  completes (writeBack w updatedFqdn) = indexable updatedFqdn.
Proof.
  unfold writeBack, indexable.
  rewrite forRange_completes_forallb.
  rewrite <- (forallb_Permutation _ _ _ (rangeOver_perm (rangeOrder w) _)).
  apply forallb_pointwise. intros [fqdn config]. simpl.
  rewrite forRange_completes_forallb. unfold poolsOf.
  rewrite forallb_flat_map. apply forallb_pointwise. intros fe.
  rewrite forRange_completes_forallb.
  apply forallb_pointwise. intros tp. apply writeTargetPool_completes.
Qed.



(** ** The version check, case by case *)

Lemma checkVersion_failed w st e :
  GetVersion w = Err e ->
  checkVersion w st =
    ([CallGetVersion; Errorf (FailedGetVersion e)], Some (version st, false, false)).
Proof. unfold checkVersion. intros ->. reflexivity. Qed.

Lemma checkVersion_changed w st v :
  GetVersion w = Ok v -> v <> version st ->
  checkVersion w st =
    ([CallGetVersion; Debugf (VersionChanged (version st) v)], Some (v, true, false)).
Proof.
  unfold checkVersion. intros -> Hne.
  rewrite bool_decide_eq_false_2 by congruence. reflexivity.
Qed.

Lemma checkVersion_forced w st :
  GetVersion w = Ok (version st) ->
  forceDue (nowSince w) (lastUpdated st) = true ->
  checkVersion w st =
    ([CallGetVersion; Debugf ExecutingForceUpdate], Some (version st, false, true)).
Proof.
  unfold checkVersion. intros -> ->.
  rewrite bool_decide_eq_true_2 by reflexivity. reflexivity.
Qed.

Lemma checkVersion_idle w st :
  GetVersion w = Ok (version st) ->
  forceDue (nowSince w) (lastUpdated st) = false ->
  checkVersion w st = ([CallGetVersion], Some (version st, false, false)).
Proof.
  unfold checkVersion. intros -> ->.
  rewrite bool_decide_eq_true_2 by reflexivity. reflexivity.
Qed.

(** The check never panics, calls neither the provider nor the Cattle
    client, fetches no snapshot, and leaves [version] alone unless it
    sets [update]. *)
Lemma checkVersion_total w st :
  exists tr v u f,
    checkVersion w st = (tr, Some (v, u, f)) /\
    providerCalls tr = [] /\ writerCalls tr = [] /\ snapshotFetches tr = 0%nat /\
    (u = false -> v = version st) /\
    (f = true ->
       u = false /\ GetVersion w = Ok (version st) /\
       forceDue (nowSince w) (lastUpdated st) = true).
Proof.
  destruct (GetVersion w) as [v|e] eqn:Hv.
  - destruct (decide (v = version st)) as [->|Hne].
    + destruct (forceDue (nowSince w) (lastUpdated st)) eqn:Hf.
      * eexists _, _, _, _. split; [apply checkVersion_forced; assumption|].
        repeat split; reflexivity.
      * eexists _, _, _, _. split; [apply checkVersion_idle; assumption|].
        repeat split; try reflexivity; discriminate.
    + eexists _, _, _, _. split; [apply (checkVersion_changed w st v); assumption|].
      repeat split; try reflexivity; discriminate.
  - eexists _, _, _, _. split; [apply (checkVersion_failed w st e); assumption|].
    repeat split; try reflexivity; discriminate.
Qed.

(** ** One tick, case by case *)

Lemma afterCheck_same st : afterCheck st (version st) = st.
Proof. destruct st; reflexivity. Qed.

Section TickCases.

Variables (w : World) (st : LoopState).

Variables (tr : trace) (v : string) (u f : bool).

Hypothesis Hcheck : checkVersion w st = (tr, Some (v, u, f)).

Lemma tick_no_update :
  u || f = false -> tick w st = (tr, Some (afterCheck st v)).
Proof.
  intros H. unfold tick. rewrite Hcheck. simpl. rewrite H.
  simpl. rewrite ?app_nil_r. reflexivity.
Qed.

Lemma tick_fetch_failed e :
  u || f = true -> GetMetadataLBConfigs w = Err e ->
  tick w st =
    (tr ++ [CallGetMetadataLBConfigs; Errorf (FailedGetLBConfigs e)],
     Some (afterCheck st v)).
Proof.
  intros H He. unfold tick. rewrite Hcheck. simpl. rewrite H, He. reflexivity.
Qed.

Lemma tick_unchanged s :
  u || f = true -> GetMetadataLBConfigs w = Ok s ->
  negb (DeepEqual s (metadataLBConfigsCached st)) || f = false ->
  tick w st =
    (tr ++ [CallGetMetadataLBConfigs; Debugf (LBConfigsFromMetadata s);
            Debugf LBConfigsDidNotChange],
     Some (afterCheck st v)).
Proof.
  intros H Hs Hgate. unfold tick. rewrite Hcheck. simpl.
  rewrite H, Hs. simpl. rewrite Hgate. reflexivity.
Qed.

Lemma tick_dispatch s updatedFqdn err :
  u || f = true -> GetMetadataLBConfigs w = Ok s ->
  negb (DeepEqual s (metadataLBConfigsCached st)) || f = true ->
  UpdateProviderLBConfigs w s = (updatedFqdn, err) ->
  tick w st =
    (tr ++ [CallGetMetadataLBConfigs; Debugf (LBConfigsFromMetadata s);
            CallUpdateProviderLBConfigs s]
        ++ match err with
           | Some e => [Errorf (FailedUpdateProvider e)]
           | None => []
           end
        ++ traceOf (writeBack w updatedFqdn),
     match stateOf (writeBack w updatedFqdn) with
     | Some _ => Some {| version := v;
                         lastUpdated := nowFinal w;
                         metadataLBConfigsCached := s |}
     | None => None
     end).
Proof.
  intros H Hs Hgate Hp. unfold tick. rewrite Hcheck. simpl.
  rewrite H, Hs. simpl. rewrite Hgate, Hp.
  unfold traceOf, stateOf.
  destruct (writeBack w updatedFqdn) as [trw [[]|]], err as [e|]; simpl;
    rewrite ?app_nil_r; reflexivity.
Qed.

End TickCases.

(** What a dispatching pass adds to the trace of the version check. *)
Lemma dispatch_trace tr s (err : option error) trw :
  providerCalls tr = [] -> writerCalls tr = [] -> snapshotFetches tr = 0%nat ->
  quiet trw ->
  let full := tr ++ [CallGetMetadataLBConfigs; Debugf (LBConfigsFromMetadata s);
                     CallUpdateProviderLBConfigs s]
                 ++ match err with
                    | Some e => [Errorf (FailedUpdateProvider e)]
                    | None => []
                    end
                 ++ trw in
  providerCalls full = [s] /\ writerCalls full = writerCalls trw /\
  snapshotFetches full = 1%nat.
Proof.
  intros Hp Hw Hs [Hqp Hqs]. cbv zeta.
  rewrite !providerCalls_app, !writerCalls_app, !snapshotFetches_app, Hp, Hw, Hs, Hqp, Hqs.
  destruct err; repeat split; reflexivity.
Qed.

(** A tick that called the provider went through both gates. *)
Lemma tick_dispatched_inv (w : World) (st : LoopState) (s : LBConfigs) :
  providerCalls (traceOf (tick w st)) = [s] ->
  exists tr v u f,
    checkVersion w st = (tr, Some (v, u, f)) /\
    u || f = true /\
    GetMetadataLBConfigs w = Ok s /\
    negb (DeepEqual s (metadataLBConfigsCached st)) || f = true /\
    providerCalls tr = [] /\ writerCalls tr = [] /\ snapshotFetches tr = 0%nat.
Proof.
  intros Hcalls.
  destruct (checkVersion_total w st) as (tr & v & u & f & Hc & Hp & Hw & Hs & _ & _).
  exists tr, v, u, f.
  destruct (u || f) eqn:Huf.
  - destruct (GetMetadataLBConfigs w) as [s'|e] eqn:Hcfg.
    + destruct (negb (DeepEqual s' (metadataLBConfigsCached st)) || f) eqn:Hgate.
      * destruct (UpdateProviderLBConfigs w s') as [o err] eqn:Hprov.
        rewrite (tick_dispatch w st _ _ _ _ Hc s' o err Huf Hcfg Hgate Hprov) in Hcalls.
        destruct (dispatch_trace tr s' err (traceOf (writeBack w o)) Hp Hw Hs
                    (writeBack_quiet w o)) as (H1 & _ & _).
        unfold traceOf at 1 in Hcalls. cbn [fst] in Hcalls.
        rewrite H1 in Hcalls. injection Hcalls as ->.
        repeat split; assumption.
      * rewrite (tick_unchanged w st _ _ _ _ Hc s' Huf Hcfg Hgate) in Hcalls.
        unfold traceOf in Hcalls. cbn [fst] in Hcalls.
        rewrite providerCalls_app, Hp in Hcalls. discriminate.
    + rewrite (tick_fetch_failed w st _ _ _ _ Hc e Huf Hcfg) in Hcalls.
      unfold traceOf in Hcalls. cbn [fst] in Hcalls.
      rewrite providerCalls_app, Hp in Hcalls. discriminate.
  - rewrite (tick_no_update w st _ _ _ _ Hc Huf) in Hcalls.
    unfold traceOf in Hcalls. cbn [fst] in Hcalls. congruence.
Qed.

(** Every tick is of one of two kinds: it leaves [lastUpdated] and the
    cache alone and calls neither the provider nor the registry writer;
    or it dispatches the fetched snapshot, runs the write-back on the
    whole outcome and, unless the write-back panicked, ends with the
    cache and [lastUpdated] assigned. A dispatch of a snapshot that is
    deeply equal to the cache is a forced one. *)
Lemma tick_cases (w : World) (st : LoopState) :
  (exists v,
     stateOf (tick w st) = Some (afterCheck st v) /\
     providerCalls (traceOf (tick w st)) = [] /\
     writerCalls (traceOf (tick w st)) = [])
  \/
  (exists v s o err,
     GetMetadataLBConfigs w = Ok s /\
     UpdateProviderLBConfigs w s = (o, err) /\
     (DeepEqual s (metadataLBConfigsCached st) = false \/
      (GetVersion w = Ok (version st) /\
       forceDue (nowSince w) (lastUpdated st) = true)) /\
     providerCalls (traceOf (tick w st)) = [s] /\
     writerCalls (traceOf (tick w st)) = writerCalls (traceOf (writeBack w o)) /\
     snapshotFetches (traceOf (tick w st)) = 1%nat /\
     stateOf (tick w st) =
       match stateOf (writeBack w o) with
       | Some _ => Some {| version := v;
                           lastUpdated := nowFinal w;
                           metadataLBConfigsCached := s |}
       | None => None
       end).
Proof.
  destruct (checkVersion_total w st) as (tr & v & u & f & Hc & Hp & Hw & Hs & _ & Hf).
  destruct (u || f) eqn:Huf.
  - destruct (GetMetadataLBConfigs w) as [s|e] eqn:Hcfg.
    + destruct (negb (DeepEqual s (metadataLBConfigsCached st)) || f) eqn:Hgate.
      * right. destruct (UpdateProviderLBConfigs w s) as [o err] eqn:Hprov.
        exists v, s, o, err.
        rewrite (tick_dispatch w st _ _ _ _ Hc s o err Huf Hcfg Hgate Hprov).
        destruct (dispatch_trace tr s err (traceOf (writeBack w o)) Hp Hw Hs
                    (writeBack_quiet w o)) as (H1 & H2 & H3).
        split; [reflexivity|]. split; [exact Hprov|]. split.
        { destruct f; [right; apply Hf; reflexivity | left].
          rewrite orb_false_r in Hgate. apply negb_true_iff. exact Hgate. }
        repeat split; assumption.
      * left. exists v. rewrite (tick_unchanged w st _ _ _ _ Hc s Huf Hcfg Hgate).
        unfold traceOf, stateOf; simpl.
        rewrite providerCalls_app, writerCalls_app, Hp, Hw. repeat split; reflexivity.
    + left. exists v. rewrite (tick_fetch_failed w st _ _ _ _ Hc e Huf Hcfg).
      unfold traceOf, stateOf; simpl.
      rewrite providerCalls_app, writerCalls_app, Hp, Hw. repeat split; reflexivity.
  - left. exists v. rewrite (tick_no_update w st _ _ _ _ Hc Huf).
    repeat split; assumption.
Qed.

(** A run over ticks on which the version changes every time while the
    snapshot stays deeply equal to the cache: only the version marker
    moves. *)
Lemma runTicks_flapping (ws : list World) (st : LoopState) :
  flapping (version st) (metadataLBConfigsCached st) ws = true ->
  exists st',
    stateOf (runTicks ws st) = Some st' /\
    providerCalls (traceOf (runTicks ws st)) = [] /\
    writerCalls (traceOf (runTicks ws st)) = [] /\
    metadataLBConfigsCached st' = metadataLBConfigsCached st /\
    lastUpdated st' = lastUpdated st.
Proof.
  revert st. induction ws as [|w ws IH]; intros st; simpl.
  - intros _. exists st. repeat split; reflexivity.
  - destruct (GetVersion w) as [v|] eqn:Hv; [|discriminate].
    destruct (GetMetadataLBConfigs w) as [s|] eqn:Hs; [|discriminate].
    rewrite !andb_true_iff, negb_true_iff, bool_decide_eq_false.
    intros [[Hne Heq] Hrest].
    assert (Hne' : v <> version st) by congruence.
    pose proof (tick_unchanged w st _ _ _ _ (checkVersion_changed w st v Hv Hne') s
                  eq_refl Hs) as Ht.
    rewrite Heq in Ht. specialize (Ht eq_refl).
    destruct (IH (afterCheck st v) Hrest) as (st' & Hst & Hp & Hw & Hcache & Hlast).
    exists st'.
    destruct (bind_returned _ (fun st1 => runTicks ws st1) _ _ Ht) as [-> ->].
    rewrite providerCalls_app, writerCalls_app, Hp, Hw.
    repeat split; assumption.
Qed.

(** A name without a delimiter is not a local error either: the
    unchecked index [parts[1]] panics, the pools after it are not
    written and the pass does not reach the assignments of lines
    148-149. *)
Lemma writeBack_panics_without_delimiter :
  let w := worldOf (Ok "v2") (5 * second)%Z (Ok snapshot2)
             (outcome3, None) (6 * second)%Z in
  writeBack w outcome3 = ([], None) /\
  stateOf (tick w settled) = None /\
  writerCalls (traceOf (tick w settled)) = [].
Proof. vm_compute. repeat split; reflexivity. Qed.

(** ** The claims *)




(** C2. On a tick where the fetched version differs from the last-seen
    one and the fetched snapshot is deeply equal to the cache, neither
    the provider nor the registry writer is called and the cache is the
    same at the end of the tick. The flag [updateForced] stays false on
    such a tick, so this holds whatever time has passed since
    [lastUpdated]. *)
Theorem C2_version_change_with_equal_snapshot_skips_provider
    (w : World) (st : LoopState) (v : string) (s : LBConfigs) :
  GetVersion w = Ok v ->
  v <> version st ->
  GetMetadataLBConfigs w = Ok s ->
  DeepEqual s (metadataLBConfigsCached st) = true ->
  exists st',
    stateOf (tick w st) = Some st' /\
    metadataLBConfigsCached st' = metadataLBConfigsCached st /\
    providerCalls (traceOf (tick w st)) = [] /\
    writerCalls (traceOf (tick w st)) = [].
Proof.
  intros Hv Hne Hs Heq. exists (afterCheck st v).
  rewrite (tick_unchanged w st _ _ _ _ (checkVersion_changed w st v Hv Hne) s
             eq_refl Hs) by (rewrite Heq; reflexivity).
  repeat split; reflexivity.
Qed.

Lemma C2_witness :
  let w := worldOf (Ok "v2") (3600 * second)%Z (Ok snapshot1)
             (outcome1, None) (3600 * second)%Z in
  exists st',
    stateOf (tick w settled) = Some st' /\
    metadataLBConfigsCached st' = metadataLBConfigsCached settled /\
    providerCalls (traceOf (tick w settled)) = [] /\
    writerCalls (traceOf (tick w settled)) = [].
Proof.
  intros w.
  apply (C2_version_change_with_equal_snapshot_skips_provider w settled "v2" snapshot1).
  - reflexivity.
  - discriminate.
  - reflexivity.
  - vm_compute. reflexivity.
Defined.

(** C3. On a tick where the fetched version equals the last-seen one and
    the time since [lastUpdated] is at least the force-update interval,
    the snapshot is fetched, and when that fetch returns a snapshot the
    provider is called with it, also when the snapshot is deeply equal
    to the cache. *)
Theorem C3_forced_update_invokes_provider (w : World) (st : LoopState) :
  GetVersion w = Ok (version st) ->
  (forceUpdateInterval * Minute <= Since (nowSince w) (lastUpdated st))%Z ->
  snapshotFetches (traceOf (tick w st)) = 1%nat /\
  (forall s, GetMetadataLBConfigs w = Ok s ->
     providerCalls (traceOf (tick w st)) = [s]).
Proof.
  intros Hv Hle.
  assert (Hf : forceDue (nowSince w) (lastUpdated st) = true).
  { rewrite forceDue_spec. apply Z.leb_le. exact Hle. }
  pose proof (checkVersion_forced w st Hv Hf) as Hc.
  destruct (GetMetadataLBConfigs w) as [s|e] eqn:Hs.
  - destruct (UpdateProviderLBConfigs w s) as [o err] eqn:Hp.
    rewrite (tick_dispatch w st _ _ _ _ Hc s o err eq_refl Hs (orb_true_r _) Hp).
    unfold traceOf at 1 3. cbn [fst].
    destruct (dispatch_trace [CallGetVersion; Debugf ExecutingForceUpdate] s err
                (traceOf (writeBack w o)) eq_refl eq_refl eq_refl
                (writeBack_quiet w o)) as (Hprov & _ & Hfetch).
    split; [exact Hfetch|]. intros s' [= <-]. exact Hprov.
  - rewrite (tick_fetch_failed w st _ _ _ _ Hc e eq_refl Hs).
    split; [reflexivity | discriminate].
Qed.

Lemma C3_witness :
  let w := worldOf (Ok "v1") (60 * second)%Z (Ok snapshot1)
             (outcome1, None) (61 * second)%Z in
  DeepEqual snapshot1 (metadataLBConfigsCached settled) = true /\
  snapshotFetches (traceOf (tick w settled)) = 1%nat /\
  (forall s, GetMetadataLBConfigs w = Ok s ->
     providerCalls (traceOf (tick w settled)) = [s]).
Proof.
  intros w. split; [vm_compute; reflexivity|].
  apply (C3_forced_update_invokes_provider w settled).
  - reflexivity.
  - vm_compute. discriminate.
Defined.

(** C4, at a failing input. The provider dispatch returns an error
    together with an outcome whose second pool name has no delimiter:
    the provider has been called with the fetched snapshot, the first
    pool is written, then the index [parts[1]] of line 140 panics; the
    third pool is not written and the pass does not reach line 148, so
    the cache is not replaced. *)
Lemma C4_dispatch_error_with_undelimited_name_panics :
  let w := worldOf (Ok "v2") (5 * second)%Z (Ok snapshot2)
             (outcome5, Some "provider failed") (6 * second)%Z in
  UpdateProviderLBConfigs w snapshot2 = (outcome5, Some "provider failed") /\
  providerCalls (traceOf (tick w settled)) = [snapshot2] /\
  map Name (poolsOf (oneFrontend ["svcA_stackX_envY"; "bad"; "svcB_stackX_envY"])) =
    ["svcA_stackX_envY"; "bad"; "svcB_stackX_envY"] /\
  writerCalls (traceOf (tick w settled)) = [("svcA", "stackX", "lb1.example.com")] /\
  stateOf (tick w settled) = None.
Proof. vm_compute. repeat split; reflexivity. Qed.

(** C5 as stated fails: a pass whose dispatch returned an error still
    assigns [lastUpdated]. *)
Lemma C5_counterexample :
  let w := worldOf (Ok "v2") (5 * second)%Z (Ok snapshot2)
             (outcome2, Some "provider failed") (6 * second)%Z in
  UpdateProviderLBConfigs w snapshot2 = (outcome2, Some "provider failed") /\
  providerCalls (traceOf (tick w settled)) = [snapshot2] /\
  lastUpdated settled = 0%Z /\
  lastUpdated <$> stateOf (tick w settled) = Some (6 * second)%Z.
Proof. vm_compute. repeat split; reflexivity. Qed.

(** C5, as the code has it. [lastUpdated] is assigned the current time
    at the end of every pass that called the provider and ran its
    write-back, whether the dispatch returned an error or not; a tick
    that does not call the provider leaves it as it was. *)
Theorem C5_lastUpdated_set_by_every_dispatching_pass (w : World) (st : LoopState) :
  (dispatched (traceOf (tick w st)) = false ->
     exists st', stateOf (tick w st) = Some st' /\ lastUpdated st' = lastUpdated st) /\
  (forall s updatedFqdn err,
     providerCalls (traceOf (tick w st)) = [s] ->
     UpdateProviderLBConfigs w s = (updatedFqdn, err) ->
     indexable updatedFqdn = true ->
     exists st', stateOf (tick w st) = Some st' /\ lastUpdated st' = nowFinal w) /\
  (forall st',
     stateOf (tick w st) = Some st' ->
     lastUpdated st' =
       if dispatched (traceOf (tick w st)) then nowFinal w else lastUpdated st).
Proof.
  unfold dispatched.
  destruct (tick_cases w st) as [(v & Hst & Hp & _) | (v & s' & o & err' & _ & Hprov' & _ & Hp & _ & _ & Hst)];
    rewrite Hp, Hst.
  - split; [|split].
    + intros _. eexists. split; reflexivity.
    + intros s uf err [=].
    + intros st' [= <-]. reflexivity.
  - split; [|split].
    + discriminate.
    + intros s uf err [= <-] Hprov Hidx.
      rewrite Hprov in Hprov'. injection Hprov' as <- <-.
      destruct (writeBack_indexable w uf Hidx) as [-> _].
      eexists. split; reflexivity.
    + intros st'. destruct (stateOf (writeBack w o)); [|discriminate].
      intros [= <-]. reflexivity.
Qed.

Lemma C5_witness :
  let w := worldOf (Ok "v2") (5 * second)%Z (Ok snapshot2)
             (outcome2, Some "provider failed") (6 * second)%Z in
  exists st', stateOf (tick w settled) = Some st' /\ lastUpdated st' = nowFinal w.
Proof.
  intros w.
  apply (proj1 (proj2 (C5_lastUpdated_set_by_every_dispatching_pass w settled))
           snapshot2 outcome2 (Some "provider failed")).
  - vm_compute. reflexivity.
  - reflexivity.
  - vm_compute. reflexivity.
Defined.

(** C6 as stated fails: a version change whose snapshot equals the
    cache records the version but leaves [lastUpdated] at its old value,
    so that one second later, one minute after the old value, a force
    update is executed. *)
Lemma C6_counterexample :
  let w1 := worldOf (Ok "v2") (59 * second)%Z (Ok snapshot1)
              (outcome1, None) (59 * second)%Z in
  let w2 := worldOf (Ok "v2") (60 * second)%Z (Ok snapshot1)
              (outcome1, None) (60 * second)%Z in
  stateOf (tick w1 settled) =
    Some {| version := "v2"; lastUpdated := 0%Z; metadataLBConfigsCached := snapshot1 |} /\
  providerCalls (traceOf (runTicks [w1; w2] settled)) = [snapshot1].
Proof. vm_compute. split; reflexivity. Qed.

(** C6, as the code has it. On a tick where the fetched version differs
    from the last-seen one the new version is recorded. The version
    change itself does not touch [lastUpdated]: it keeps its value when
    the snapshot fetch fails or the snapshot is deeply equal to the
    cache, and is assigned the current time only at the end of a pass
    that dispatched the snapshot and ran its write-back. *)
Theorem C6_version_change_records_version_only
    (w : World) (st : LoopState) (v : string) :
  GetVersion w = Ok v ->
  v <> version st ->
  (forall e, GetMetadataLBConfigs w = Err e ->
     stateOf (tick w st) =
       Some {| version := v;
               lastUpdated := lastUpdated st;
               metadataLBConfigsCached := metadataLBConfigsCached st |}) /\
  (forall s, GetMetadataLBConfigs w = Ok s ->
     DeepEqual s (metadataLBConfigsCached st) = true ->
     stateOf (tick w st) =
       Some {| version := v;
               lastUpdated := lastUpdated st;
               metadataLBConfigsCached := metadataLBConfigsCached st |}) /\
  (forall s, GetMetadataLBConfigs w = Ok s ->
     DeepEqual s (metadataLBConfigsCached st) = false ->
     indexable (UpdateProviderLBConfigs w s).1 = true ->
     stateOf (tick w st) =
       Some {| version := v;
               lastUpdated := nowFinal w;
               metadataLBConfigsCached := s |}).
Proof.
  intros Hv Hne. pose proof (checkVersion_changed w st v Hv Hne) as Hc.
  split; [|split].
  - intros e He. rewrite (tick_fetch_failed w st _ _ _ _ Hc e eq_refl He). reflexivity.
  - intros s Hs Heq.
    rewrite (tick_unchanged w st _ _ _ _ Hc s eq_refl Hs) by (rewrite Heq; reflexivity).
    reflexivity.
  - intros s Hs Hneq Hidx.
    destruct (UpdateProviderLBConfigs w s) as [o err] eqn:Hprov.
    rewrite (tick_dispatch w st _ _ _ _ Hc s o err eq_refl Hs) by
      (try exact Hprov; rewrite Hneq; reflexivity).
    destruct (writeBack_indexable w o Hidx) as [Hst _].
    unfold stateOf at 1. cbn [snd]. rewrite Hst. reflexivity.
Qed.

Lemma C6_witness :
  let w := worldOf (Ok "v2") (5 * second)%Z (Ok snapshot2)
             (outcome2, None) (6 * second)%Z in
  stateOf (tick w settled) =
    Some {| version := "v2";
            lastUpdated := (6 * second)%Z;
            metadataLBConfigsCached := snapshot2 |}.
Proof.
  intros w.
  apply (proj2 (proj2 (C6_version_change_records_version_only w settled "v2"
                         eq_refl ltac:(discriminate))) snapshot2).
  - reflexivity.
  - vm_compute. reflexivity.
  - vm_compute. reflexivity.
Defined.

(** C7. On a tick where the version fetch succeeds, the fetched version
    equals the last-seen one and less than the force-update interval has
    passed since [lastUpdated], the tick fetches no snapshot, calls
    neither the provider nor the registry writer, and leaves the cache,
    the version marker and [lastUpdated] as they were. *)
Theorem C7_unchanged_version_tick_is_noop (w : World) (st : LoopState) :
  GetVersion w = Ok (version st) ->
  (Since (nowSince w) (lastUpdated st) < forceUpdateInterval * Minute)%Z ->
  stateOf (tick w st) = Some st /\
  snapshotFetches (traceOf (tick w st)) = 0%nat /\
  providerCalls (traceOf (tick w st)) = [] /\
  writerCalls (traceOf (tick w st)) = [].
Proof.
  intros Hv Hlt.
  assert (Hf : forceDue (nowSince w) (lastUpdated st) = false).
  { rewrite forceDue_spec. apply Z.leb_gt. exact Hlt. }
  rewrite (tick_no_update w st _ _ _ _ (checkVersion_idle w st Hv Hf) eq_refl).
  rewrite afterCheck_same. repeat split; reflexivity.
Qed.

Lemma C7_witness :
  let w := worldOf (Ok "v1") (59 * second)%Z (Ok snapshot1) (outcome1, None) (59 * second)%Z in
  stateOf (tick w settled) = Some settled /\
  snapshotFetches (traceOf (tick w settled)) = 0%nat /\
  providerCalls (traceOf (tick w settled)) = [] /\
  writerCalls (traceOf (tick w settled)) = [].
Proof.
  intros w. apply (C7_unchanged_version_tick_is_noop w settled).
  - reflexivity.
  - vm_compute. reflexivity.
Defined.

(** C8. When the snapshot fetch fails, the tick ends without a provider
    call or a write-back and without touching the cache or
    [lastUpdated]; if the version had changed on that tick, the version
    marker keeps the newly fetched version. *)
Theorem C8_snapshot_fetch_failure_abandons_tick (w : World) (st : LoopState) (e : error) :
  GetMetadataLBConfigs w = Err e ->
  exists st',
    stateOf (tick w st) = Some st' /\
    providerCalls (traceOf (tick w st)) = [] /\
    writerCalls (traceOf (tick w st)) = [] /\
    metadataLBConfigsCached st' = metadataLBConfigsCached st /\
    lastUpdated st' = lastUpdated st /\
    (forall v, GetVersion w = Ok v -> v <> version st ->
       version st' = v /\ snapshotFetches (traceOf (tick w st)) = 1%nat).
Proof.
  intros He.
  destruct (checkVersion_total w st) as (tr & v & u & f & Hc & Hp & Hw & Hs & Hu & Hf).
  exists (afterCheck st v).
  assert (Hchanged : forall v', GetVersion w = Ok v' -> v' <> version st ->
            v = v' /\ u = true).
  { intros v' Hv' Hne. rewrite (checkVersion_changed w st v' Hv' Hne) in Hc.
    injection Hc as _ -> ->. split; reflexivity. }
  destruct (u || f) eqn:Huf.
  - rewrite (tick_fetch_failed w st _ _ _ _ Hc e Huf He).
    unfold traceOf, stateOf; simpl.
    rewrite providerCalls_app, writerCalls_app, snapshotFetches_app, Hp, Hw, Hs.
    do 5 (split; [reflexivity|]).
    intros v' Hv' Hne. destruct (Hchanged v' Hv' Hne) as [-> _].
    split; reflexivity.
  - rewrite (tick_no_update w st _ _ _ _ Hc Huf).
    unfold traceOf, stateOf; simpl.
    split; [reflexivity|]. do 2 (split; [assumption|]).
    do 2 (split; [reflexivity|]).
    intros v' Hv' Hne. destruct (Hchanged v' Hv' Hne) as [_ ->]. discriminate.
Qed.

Lemma C8_witness :
  let w := worldOf (Ok "v2") (5 * second)%Z (Err "metadata unavailable")
             (outcome1, None) (5 * second)%Z in
  exists st',
    stateOf (tick w settled) = Some st' /\
    providerCalls (traceOf (tick w settled)) = [] /\
    writerCalls (traceOf (tick w settled)) = [] /\
    metadataLBConfigsCached st' = metadataLBConfigsCached settled /\
    lastUpdated st' = lastUpdated settled /\
    (forall v, GetVersion w = Ok v -> v <> version settled ->
       version st' = v /\ snapshotFetches (traceOf (tick w settled)) = 1%nat).
Proof.
  intros w.
  apply (C8_snapshot_fetch_failure_abandons_tick w settled "metadata unavailable").
  reflexivity.
Defined.

(** C9 as stated fails, in two ways. The source may return an empty
    snapshot, which is deeply equal to the empty initial cache: the
    snapshot is fetched and the provider is not called. And the source
    may report a version that equals the initial marker ["init"]: less
    than a minute after the start the tick then fetches no snapshot and
    calls no provider, whatever the snapshot would have been. *)
Lemma C9_counterexample :
  let w := worldOf (Ok "v1") (1 * second)%Z (Ok (MkMap ∅))
             (MkMap ∅, None) (1 * second)%Z in
  let w' := worldOf (Ok "init") (1 * second)%Z (Ok snapshot1)
              (outcome1, None) (1 * second)%Z in
  (GetVersion w = Ok "v1" /\
   GetMetadataLBConfigs w = Ok (MkMap ∅) /\
   snapshotFetches (traceOf (tick w (initState 0%Z))) = 1%nat /\
   providerCalls (traceOf (tick w (initState 0%Z))) = []) /\
  (GetVersion w' = Ok "init" /\
   GetMetadataLBConfigs w' = Ok snapshot1 /\
   DeepEqual snapshot1 (metadataLBConfigsCached (initState 0%Z)) = false /\
   snapshotFetches (traceOf (tick w' (initState 0%Z))) = 0%nat /\
   providerCalls (traceOf (tick w' (initState 0%Z))) = []).
Proof. vm_compute. repeat split; reflexivity. Qed.

(** C9, as the code has it. On the first tick after process start, when
    the source answers the version fetch and the snapshot fetch without
    error, the snapshot is fetched and the provider is called with it
    in two cases: the fetched version differs from the initial marker
    ["init"] and the snapshot is not deeply equal to the empty initial
    cache (it is not an empty non-nil map); or the fetched version
    equals ["init"] and at least the force interval has passed since
    the start. *)
Theorem C9_first_tick_reconciles_unless_sentinel_or_empty
    (t0 : Time) (w : World) (v : string) (s : LBConfigs) :
  GetVersion w = Ok v ->
  GetMetadataLBConfigs w = Ok s ->
  (v <> "init" ->
   DeepEqual s (MkMap ∅) = false ->
   snapshotFetches (traceOf (tick w (initState t0))) = 1%nat /\
   providerCalls (traceOf (tick w (initState t0))) = [s]) /\
  (v = "init" ->
   (forceUpdateInterval * Minute <= Since (nowSince w) t0)%Z ->
   snapshotFetches (traceOf (tick w (initState t0))) = 1%nat /\
   providerCalls (traceOf (tick w (initState t0))) = [s]).
Proof.
  intros Hv Hs.
  assert (Hdispatch : forall tr v' u f,
            checkVersion w (initState t0) = (tr, Some (v', u, f)) ->
            providerCalls tr = [] -> writerCalls tr = [] ->
            snapshotFetches tr = 0%nat ->
            u || f = true ->
            negb (DeepEqual s (metadataLBConfigsCached (initState t0))) || f = true ->
            snapshotFetches (traceOf (tick w (initState t0))) = 1%nat /\
            providerCalls (traceOf (tick w (initState t0))) = [s]).
  { intros tr v' u f Hc Hp Hw Hsf Huf Hgate.
    destruct (UpdateProviderLBConfigs w s) as [o err] eqn:Hprov.
    rewrite (tick_dispatch w (initState t0) _ _ _ _ Hc s o err Huf Hs Hgate Hprov).
    destruct (dispatch_trace tr s err (traceOf (writeBack w o)) Hp Hw Hsf
                (writeBack_quiet w o)) as (H1 & _ & H3).
    split; [exact H3 | exact H1]. }
  split.
  - intros Hne Hneq.
    apply (Hdispatch _ _ _ _ (checkVersion_changed w (initState t0) v Hv Hne));
      try reflexivity.
    cbn [initState metadataLBConfigsCached]. rewrite Hneq. reflexivity.
  - intros -> Hdue.
    assert (Hf : forceDue (nowSince w) (lastUpdated (initState t0)) = true).
    { rewrite forceDue_spec. apply Z.leb_le. exact Hdue. }
    apply (Hdispatch _ _ _ _ (checkVersion_forced w (initState t0) Hv Hf));
      try reflexivity.
    apply orb_true_r.
Qed.

Lemma C9_witness :
  let w := worldOf (Ok "v1") (1 * second)%Z (Ok snapshot1)
             (outcome1, None) (2 * second)%Z in
  snapshotFetches (traceOf (tick w (initState 0%Z))) = 1%nat /\
  providerCalls (traceOf (tick w (initState 0%Z))) = [snapshot1].
Proof.
  intros w.
  apply (proj1 (C9_first_tick_reconciles_unless_sentinel_or_empty
                  0%Z w "v1" snapshot1 eq_refl eq_refl)).
  - discriminate.
  - vm_compute. reflexivity.
Defined.

(** C10. The flag [updateForced] is set only on a tick on which the
    version fetch succeeded with the last-seen version and the interval
    has elapsed, and a dispatch of a snapshot that is deeply equal to
    the cache happens only on such a tick. So on a run whose fetched
    version differs from the last-seen one on every tick while the
    fetched snapshot stays deeply equal to the cache, the provider is
    never called, whatever the clock readings. *)
Theorem C10_forced_update_needs_unchanged_version :
  (forall (w : World) (st : LoopState) (tr : trace) (v : string) (u : bool),
     checkVersion w st = (tr, Some (v, u, true)) ->
     GetVersion w = Ok (version st) /\ v = version st /\ u = false /\
     (forceUpdateInterval * Minute <= Since (nowSince w) (lastUpdated st))%Z) /\
  (forall (w : World) (st : LoopState) (s : LBConfigs),
     providerCalls (traceOf (tick w st)) = [s] ->
     DeepEqual s (metadataLBConfigsCached st) = true ->
     GetVersion w = Ok (version st) /\
     (forceUpdateInterval * Minute <= Since (nowSince w) (lastUpdated st))%Z) /\
  (forall (ws : list World) (st : LoopState),
     flapping (version st) (metadataLBConfigsCached st) ws = true ->
     exists st',
       stateOf (runTicks ws st) = Some st' /\
       providerCalls (traceOf (runTicks ws st)) = [] /\
       metadataLBConfigsCached st' = metadataLBConfigsCached st).
Proof.
  split; [|split].
  - intros w st tr v u Hc.
    destruct (checkVersion_total w st) as (tr' & v' & u' & f' & Hc' & _ & _ & _ & Hu & Hf).
    rewrite Hc in Hc'. injection Hc' as <- <- <- <-.
    destruct (Hf eq_refl) as (-> & Hv & Hdue).
    split; [exact Hv|]. split; [apply Hu; reflexivity|]. split; [reflexivity|].
    rewrite forceDue_spec in Hdue. apply Z.leb_le. exact Hdue.
  - intros w st s Hcalls Heq.
    destruct (tick_cases w st) as [(v & _ & Hp & _) | (v & s' & o & err & _ & _ & Hwhy & Hp & _)].
    + rewrite Hp in Hcalls. discriminate.
    + rewrite Hp in Hcalls. injection Hcalls as ->.
      destruct Hwhy as [Hneq | [Hv Hf]]; [congruence|].
      split; [exact Hv|]. rewrite forceDue_spec in Hf. apply Z.leb_le. exact Hf.
  - intros ws st Hflap.
    destruct (runTicks_flapping ws st Hflap) as (st' & Hst & Hp & _ & Hcache & _).
    exists st'. repeat split; assumption.
Qed.

Lemma C10_witness :
  let world (v : string) (t : Z) :=
    worldOf (Ok v) (t * 3600 * second)%Z (Ok snapshot1) (outcome1, None)
      (t * 3600 * second)%Z in
  let ws := [world "v2" 1%Z; world "v3" 2%Z; world "v2" 3%Z; world "v1" 24%Z] in
  exists st',
    stateOf (runTicks ws settled) = Some st' /\
    providerCalls (traceOf (runTicks ws settled)) = [] /\
    metadataLBConfigsCached st' = metadataLBConfigsCached settled.
Proof.
  intros world ws.
  apply (proj2 (proj2 C10_forced_update_needs_unchanged_version) ws settled).
  vm_compute. reflexivity.
Defined.

(** ** Further properties of the loop *)

(** *** Laws of sequencing *)

Lemma bind_ret_l {A B} (a : A) (f : A -> M B) : bind (ret a) f = f a.
Proof. unfold bind, ret. destruct (f a). reflexivity. Qed.

Lemma bind_ret_unit (m : M unit) : bind m (fun _ => ret tt) = m.
Proof.
  destruct m as [tr [[]|]]; unfold bind, ret; simpl; [|reflexivity].
  rewrite app_nil_r. reflexivity.
Qed.

Lemma bind_assoc {A B C} (m : M A) (f : A -> M B) (g : B -> M C) :
  bind (bind m f) g = bind m (fun a => bind (f a) g).
Proof.
  destruct m as [tr [a|]]; unfold bind; simpl; [|reflexivity].
  destruct (f a) as [tr1 [b|]]; simpl; [|reflexivity].
  destruct (g b) as [tr2 c]. rewrite app_assoc. reflexivity.
Qed.

Lemma forRange_app {A} (body : A -> M unit) l1 l2 :
  forRange body (l1 ++ l2) = bind (forRange body l1) (fun _ => forRange body l2).
Proof.
  induction l1 as [|x l1 IH]; cbn [forRange app].
  - rewrite bind_ret_l. reflexivity.
  - rewrite IH, bind_assoc. reflexivity.
Qed.

Lemma forRange_flat_map {A B} (f : A -> list B) (body : B -> M unit) l :
  forRange (fun x => forRange body (f x)) l = forRange body (flat_map f l).
Proof.
  induction l as [|x l IH]; cbn [forRange flat_map]; [reflexivity|].
  rewrite forRange_app, IH. reflexivity.
Qed.

Lemma forRange_map {A B} (f : A -> B) (body : B -> M unit) l :
  forRange (fun x => body (f x)) l = forRange body (map f l).
Proof.
  induction l as [|x l IH]; cbn [forRange map]; [reflexivity|].
  rewrite IH. reflexivity.
Qed.

Lemma forRange_pointwise {A} (body1 body2 : A -> M unit) l :
  (forall x, body1 x = body2 x) -> forRange body1 l = forRange body2 l.
Proof.
  intros H. induction l as [|x l IH]; cbn [forRange]; [reflexivity|].
  rewrite H, IH. reflexivity.
Qed.

(** The three nested loops are one loop over the pools of the outcome. *)
Lemma writeBack_flat (w : World) (updatedFqdn : LBConfigs) :
  writeBack w updatedFqdn =
  forRange (fun p : string * TargetPool => writeTargetPool w p.1 p.2)
           (flatPools (rangeOver (rangeOrder w) (entries_of updatedFqdn))).
Proof.
  unfold writeBack, flatPools.
  rewrite <- forRange_flat_map. apply forRange_pointwise. intros [fqdn config].
  cbn [fst snd]. unfold poolsOf.
  rewrite <- (forRange_map (pair fqdn)
                (fun p : string * TargetPool => writeTargetPool w p.1 p.2)).
  cbn [fst snd]. rewrite <- forRange_flat_map. reflexivity.
Qed.

Lemma writePools_prefix (w : World) (l : list (string * TargetPool)) :
  let loop := forRange (fun p : string * TargetPool => writeTargetPool w p.1 p.2) l in
  writerCalls (traceOf loop) =
    map (fun p => writeOf p.1 p.2) (takeWhileb (fun p => hasTwoSegments p.2) l) /\
  stateOf loop = if forallb (fun p => hasTwoSegments p.2) l then Some tt else None.
Proof.
  induction l as [|[fqdn tp] l [IHt IHs]]; simpl; [split; reflexivity|].
  rewrite traceOf_bind, stateOf_bind, writerCalls_app.
  destruct (hasTwoSegments tp) eqn:Htp.
  - destruct (writeTargetPool_two_segments w fqdn tp Htp) as [-> ->].
    simpl in IHt, IHs. rewrite IHt, IHs. split; reflexivity.
  - rewrite (writeTargetPool_one_segment w fqdn tp Htp). split; reflexivity.
Qed.

(** *** What a tick does, as a function of its inputs *)

Lemma tick_summary (w : World) (st : LoopState) :
  providerCalls (traceOf (tick w st)) =
    match shouldDispatch w st with
    | Some s => [s]
    | None => []
    end /\
  writerCalls (traceOf (tick w st)) =
    match shouldDispatch w st with
    | Some s => writerCalls (traceOf (writeBack w (UpdateProviderLBConfigs w s).1))
    | None => []
    end /\
  stateOf (tick w st) =
    match shouldDispatch w st with
    | Some s =>
        if completes (writeBack w (UpdateProviderLBConfigs w s).1)
        then Some {| version := nextVersion w st;
                     lastUpdated := nowFinal w;
                     metadataLBConfigsCached := s |}
        else None
    | None => Some (afterCheck st (nextVersion w st))
    end.
Proof.
  assert (Hquiet : forall tr tail v,
            tick w st = (tr ++ tail, Some (afterCheck st v)) ->
            providerCalls tr = [] -> writerCalls tr = [] ->
            providerCalls tail = [] -> writerCalls tail = [] ->
            providerCalls (traceOf (tick w st)) = [] /\
            writerCalls (traceOf (tick w st)) = [] /\
            stateOf (tick w st) = Some (afterCheck st v)).
  { intros tr tail v -> Hp Hw Hp' Hw'. unfold traceOf, stateOf. cbn [fst snd].
    rewrite providerCalls_app, writerCalls_app, Hp, Hw, Hp', Hw'.
    repeat split; reflexivity. }
  assert (Hdisp : forall tr v u f s,
            checkVersion w st = (tr, Some (v, u, f)) ->
            providerCalls tr = [] -> writerCalls tr = [] -> snapshotFetches tr = 0%nat ->
            u || f = true -> GetMetadataLBConfigs w = Ok s ->
            negb (DeepEqual s (metadataLBConfigsCached st)) || f = true ->
            providerCalls (traceOf (tick w st)) = [s] /\
            writerCalls (traceOf (tick w st)) =
              writerCalls (traceOf (writeBack w (UpdateProviderLBConfigs w s).1)) /\
            stateOf (tick w st) =
              if completes (writeBack w (UpdateProviderLBConfigs w s).1)
              then Some {| version := v;
                           lastUpdated := nowFinal w;
                           metadataLBConfigsCached := s |}
              else None).
  { intros tr v u f s Hc Hp Hw Hs Huf Hcfg Hgate.
    destruct (UpdateProviderLBConfigs w s) as [o err] eqn:Hprov.
    rewrite (tick_dispatch w st _ _ _ _ Hc s o err Huf Hcfg Hgate Hprov).
    destruct (dispatch_trace tr s err (traceOf (writeBack w o)) Hp Hw Hs
                (writeBack_quiet w o)) as (H1 & H2 & _).
    unfold traceOf at 1 2, stateOf at 1. cbn [fst snd].
    split; [exact H1|]. split; [exact H2|].
    unfold completes. destruct (stateOf (writeBack w o)); reflexivity. }
  unfold shouldDispatch, nextVersion.
  destruct (GetVersion w) as [v|e] eqn:Hv.
  - destruct (decide (v = version st)) as [->|Hne].
    + rewrite bool_decide_eq_true_2 by reflexivity.
      destruct (forceDue (nowSince w) (lastUpdated st)) eqn:Hf.
      * pose proof (checkVersion_forced w st Hv Hf) as Hc.
        destruct (GetMetadataLBConfigs w) as [s|e] eqn:Hcfg.
        -- apply (Hdisp _ _ _ _ s Hc); try reflexivity. apply orb_true_r.
        -- apply (Hquiet _ _ _ (tick_fetch_failed w st _ _ _ _ Hc e eq_refl Hcfg));
             reflexivity.
      * pose proof (checkVersion_idle w st Hv Hf) as Hc.
        pose proof (tick_no_update w st _ _ _ _ Hc eq_refl) as Ht.
        rewrite <- (app_nil_r [CallGetVersion]) in Ht.
        destruct (GetMetadataLBConfigs w); apply (Hquiet _ _ _ Ht); reflexivity.
    + rewrite bool_decide_eq_false_2 by congruence.
      pose proof (checkVersion_changed w st v Hv Hne) as Hc.
      destruct (GetMetadataLBConfigs w) as [s|e] eqn:Hcfg.
      * destruct (DeepEqual s (metadataLBConfigsCached st)) eqn:Heq.
        -- apply (Hquiet _ _ _ (tick_unchanged w st _ _ _ _ Hc s eq_refl Hcfg
                                  ltac:(rewrite Heq; reflexivity))); reflexivity.
        -- apply (Hdisp _ _ _ _ s Hc); try reflexivity. rewrite Heq. reflexivity.
      * apply (Hquiet _ _ _ (tick_fetch_failed w st _ _ _ _ Hc e eq_refl Hcfg));
          reflexivity.
  - pose proof (checkVersion_failed w st e Hv) as Hc.
    pose proof (tick_no_update w st _ _ _ _ Hc eq_refl) as Ht.
    rewrite <- (app_nil_r [CallGetVersion; Errorf (FailedGetVersion e)]) in Ht.
    apply (Hquiet _ _ _ Ht); reflexivity.
Qed.

(** The writer calls and the end of a write-back, panic or not. *)
Lemma writeBack_prefix (w : World) (updatedFqdn : LBConfigs) :
  writerCalls (traceOf (writeBack w updatedFqdn)) =
    map (fun p => writeOf p.1 p.2)
        (takeWhileb (fun p => hasTwoSegments p.2)
           (flatPools (rangeOver (rangeOrder w) (entries_of updatedFqdn)))) /\
  stateOf (writeBack w updatedFqdn) =
    if indexable updatedFqdn then Some tt else None.
Proof.
  split.
  - rewrite writeBack_flat. apply writePools_prefix.
  - pose proof (writeBack_completes w updatedFqdn) as H. unfold completes in H.
    destruct (stateOf (writeBack w updatedFqdn)) as [[]|]; rewrite <- H; reflexivity.
Qed.

(** X1. When the version fetch fails the tick does nothing else: it logs
    the error and leaves [version], [lastUpdated] and the cache as they
    were, without a snapshot fetch, a provider call or a write-back,
    however long ago [lastUpdated] is. *)
Theorem X1_version_fetch_failure_is_noop (w : World) (st : LoopState) (e : error) :
  GetVersion w = Err e ->
  tick w st = ([CallGetVersion; Errorf (FailedGetVersion e)], Some st).
Proof.
  intros Hv.
  rewrite (tick_no_update w st _ _ _ _ (checkVersion_failed w st e Hv) eq_refl).
  rewrite afterCheck_same. reflexivity.
Qed.

Lemma X1_witness :
  let w := worldOf (Err "connection refused") (3600 * second)%Z (Ok snapshot2)
             (outcome2, None) (3600 * second)%Z in
  tick w settled =
    ([CallGetVersion; Errorf (FailedGetVersion "connection refused")], Some settled).
Proof.
  intros w. apply (X1_version_fetch_failure_is_noop w settled "connection refused").
  reflexivity.
Defined.

(** X2. A tick calls the provider at most once, always with the snapshot
    it fetched, and exactly in two situations: the version is unchanged
    and the force interval has elapsed, or the version has changed and
    the snapshot is not deeply equal to the cache; in both the version
    fetch and the snapshot fetch must have succeeded. *)
Theorem X2_provider_called_exactly_when_gates_open (w : World) (st : LoopState) :
  providerCalls (traceOf (tick w st)) =
    match GetVersion w, GetMetadataLBConfigs w with
    | Ok newVersion, Ok s =>
        if bool_decide (version st = newVersion)
        then if (forceUpdateInterval * Minute <=? Since (nowSince w) (lastUpdated st))%Z
             then [s] else []
        else if DeepEqual s (metadataLBConfigsCached st) then [] else [s]
    | _, _ => []
    end.
Proof.
  destruct (tick_summary w st) as (-> & _ & _).
  unfold shouldDispatch. rewrite forceDue_spec.
  destruct (GetVersion w) as [v|]; [|reflexivity].
  destruct (GetMetadataLBConfigs w) as [s|]; [|reflexivity].
  destruct (bool_decide (version st = v)).
  - destruct (_ <=? _)%Z; reflexivity.
  - destruct (DeepEqual s (metadataLBConfigsCached st)); reflexivity.
Qed.

(** X3. A tick ends in a panic exactly when it dispatches and the
    outcome the provider returns has a pool whose name has no
    delimiter; every other tick runs to its end. *)
Theorem X3_tick_panics_iff_unindexable_outcome (w : World) (st : LoopState) :
  stateOf (tick w st) = None <->
  exists s, providerCalls (traceOf (tick w st)) = [s] /\
            indexable (UpdateProviderLBConfigs w s).1 = false.
Proof.
  destruct (tick_summary w st) as (Hp & _ & Hs). rewrite Hp, Hs.
  destruct (shouldDispatch w st) as [s|].
  - rewrite writeBack_completes. split.
    + intros H. exists s. split; [reflexivity|].
      destruct (indexable _); [discriminate | reflexivity].
    + intros (s' & [= <-] & ->). reflexivity.
  - split; [discriminate | intros (s & [=] & _)].
Qed.

(** X4. The registry-writer calls of a write-back, panic or not: the
    pools of the outcome are visited in one sequence (entries in the
    order of the [range], frontends and pools in slice order), each pool
    up to the first whose name has no delimiter gets one call with its
    first two segments, and nothing after that pool is written. The
    write-back reaches its end exactly when no name lacks a delimiter. *)
Theorem X4_write_back_writes_prefix_before_first_bad_name
    (w : World) (updatedFqdn : LBConfigs) :
  writerCalls (traceOf (writeBack w updatedFqdn)) =
    map (fun p => writeOf p.1 p.2)
        (takeWhileb (fun p => hasTwoSegments p.2)
           (flatPools (rangeOver (rangeOrder w) (entries_of updatedFqdn)))) /\
  stateOf (writeBack w updatedFqdn) =
    if indexable updatedFqdn then Some tt else None.
Proof.
  destruct (writeBack_prefix w updatedFqdn) as [Hcalls Hstate].
  split; [exact Hcalls | exact Hstate].
Qed.

(** X5. What the registry writer answers has no influence on the tick:
    with any other answers the tick makes the same provider call and the
    same writer calls and ends in the same state. *)
Theorem X5_registry_answers_do_not_matter
    (w : World) (st : LoopState)
    (upd : string -> string -> string -> option error) :
  providerCalls (traceOf (tick (withWriter w upd) st)) = providerCalls (traceOf (tick w st)) /\
  writerCalls (traceOf (tick (withWriter w upd) st)) = writerCalls (traceOf (tick w st)) /\
  stateOf (tick (withWriter w upd) st) = stateOf (tick w st).
Proof.
  destruct (tick_summary w st) as (Hp & Hw & Hs).
  destruct (tick_summary (withWriter w upd) st) as (Hp' & Hw' & Hs').
  change (shouldDispatch (withWriter w upd) st) with (shouldDispatch w st) in *.
  change (nextVersion (withWriter w upd) st) with (nextVersion w st) in *.
  rewrite Hp, Hw, Hs, Hp', Hw', Hs'.
  destruct (shouldDispatch w st) as [s|]; [|repeat split; reflexivity].
  change (UpdateProviderLBConfigs (withWriter w upd) s)
    with (UpdateProviderLBConfigs w s).
  set (o := (UpdateProviderLBConfigs w s).1).
  destruct (writeBack_prefix w o) as [Hc _].
  destruct (writeBack_prefix (withWriter w upd) o) as [Hc' _].
  rewrite !writeBack_completes, Hc, Hc'. repeat split; reflexivity.
Qed.




(** With a name without delimiter in the outcome the visiting order
    decides which calls are made before the panic. *)
Lemma range_order_matters_before_panic :
  let w := worldOf (Ok "v2") (5 * second)%Z (Ok snapshot2)
             (outcome4, None) (6 * second)%Z in
  length (writerCalls (traceOf (writeBack w outcome4))) <>
  length (writerCalls (traceOf (writeBack (withRangeOrder w reverseOrder) outcome4))).
Proof. vm_compute. discriminate. Qed.

(** X7. Within a tick that dispatches, the snapshot fetch comes before
    the provider call and every registry-writer call comes after it:
    before the provider call the trace has exactly one snapshot fetch
    and no writer call, after it no further fetch and no further
    provider call. *)
Theorem X7_fetch_then_dispatch_then_write_back
    (w : World) (st : LoopState) (s : LBConfigs) :
  providerCalls (traceOf (tick w st)) = [s] ->
  exists pre post,
    traceOf (tick w st) = pre ++ CallUpdateProviderLBConfigs s :: post /\
    snapshotFetches pre = 1%nat /\
    writerCalls pre = [] /\
    providerCalls pre = [] /\
    snapshotFetches post = 0%nat /\
    providerCalls post = [] /\
    writerCalls post = writerCalls (traceOf (tick w st)).
Proof.
  intros Hcalls.
  destruct (tick_dispatched_inv w st s Hcalls)
    as (tr & v & u & f & Hc & Huf & Hcfg & Hgate & Hp & Hw & Hs).
  destruct (UpdateProviderLBConfigs w s) as [o err] eqn:Hprov.
  assert (Htr : traceOf (tick w st) =
            tr ++ [CallGetMetadataLBConfigs; Debugf (LBConfigsFromMetadata s);
                   CallUpdateProviderLBConfigs s]
               ++ match err with
                  | Some e => [Errorf (FailedUpdateProvider e)]
                  | None => []
                  end
               ++ traceOf (writeBack w o))
    by (rewrite (tick_dispatch w st _ _ _ _ Hc s o err Huf Hcfg Hgate Hprov);
        reflexivity).
  rewrite Htr.
  destruct (writeBack_quiet w o) as [Hqp Hqs].
  exists (tr ++ [CallGetMetadataLBConfigs; Debugf (LBConfigsFromMetadata s)]).
  exists (match err with
          | Some e => [Errorf (FailedUpdateProvider e)]
          | None => []
          end ++ traceOf (writeBack w o)).
  split; [rewrite <- app_assoc; reflexivity|].
  rewrite !snapshotFetches_app, !writerCalls_app, !providerCalls_app, Hp, Hw, Hs, Hqp, Hqs.
  destruct err; repeat split; reflexivity.
Qed.

Lemma X7_witness :
  let w := worldOf (Ok "v2") (5 * second)%Z (Ok snapshot2)
             (outcome2, Some "provider failed") (6 * second)%Z in
  exists pre post,
    traceOf (tick w settled) = pre ++ CallUpdateProviderLBConfigs snapshot2 :: post /\
    snapshotFetches pre = 1%nat /\
    writerCalls pre = [] /\
    providerCalls pre = [] /\
    snapshotFetches post = 0%nat /\
    providerCalls post = [] /\
    writerCalls post = writerCalls (traceOf (tick w settled)).
Proof.
  intros w. apply (X7_fetch_then_dispatch_then_write_back w settled snapshot2).
  vm_compute. reflexivity.
Defined.

Lemma writeTargetPool_events (w : World) (fqdn : string) (tp : TargetPool) :
  hasTwoSegments tp = true ->
  writeTargetPool w fqdn tp = (writeEvents w (fqdn, tp), Some tt).
Proof.
  unfold hasTwoSegments, writeTargetPool, writeEvents, writeOf. intros H.
  apply Nat.leb_le in H. cbn [fst snd].
  destruct (Split (Name tp) delimiter) as [|p0 [|p1 rest]]; simpl in H; try lia.
  simpl. destruct (UpdateServiceFqdn w p0 p1 fqdn); reflexivity.
Qed.

(** X8. The write-back logs nothing but failed registry calls, each
    right after its call: its trace is, pool by pool up to the first
    name without delimiter, the call followed by one error line when
    the registry writer answered with an error. A failed call does not
    end the loop. *)
Theorem X8_failed_registry_call_is_logged_and_skipped_over
    (w : World) (updatedFqdn : LBConfigs) :
  traceOf (writeBack w updatedFqdn) =
    flat_map (writeEvents w)
      (takeWhileb (fun p => hasTwoSegments p.2)
         (flatPools (rangeOver (rangeOrder w) (entries_of updatedFqdn)))).
Proof.
  rewrite writeBack_flat.
  induction (flatPools (rangeOver (rangeOrder w) (entries_of updatedFqdn)))
    as [|[fqdn tp] l IH]; [reflexivity|].
  cbn [forRange takeWhileb fst snd]. rewrite traceOf_bind.
  destruct (hasTwoSegments tp) eqn:Htp.
  - rewrite (writeTargetPool_events w fqdn tp Htp).
    unfold traceOf at 1, stateOf. cbn [fst snd flat_map]. rewrite IH. reflexivity.
  - rewrite (writeTargetPool_one_segment w fqdn tp Htp). reflexivity.
Qed.

(** *** [strings.Split] *)

Lemma append_empty_r (s : string) : s +:+ "" = s.
Proof.
  induction s as [|c s IH]; [reflexivity|].
  change (String c (s +:+ "") = String c s). f_equal. exact IH.
Qed.

Lemma append_String_assoc (s1 s2 : string) (c : ascii) :
  (s1 +:+ String c "") +:+ s2 = s1 +:+ String c s2.
Proof.
  induction s1 as [|d s1 IH]; [reflexivity|].
  change (String d ((s1 +:+ String c "") +:+ s2) = String d (s1 +:+ String c s2)).
  f_equal. exact IH.
Qed.

Lemma string_of_list_ascii_snoc (l : list ascii) (c : ascii) :
  string_of_list_ascii (l ++ [c]) = string_of_list_ascii l +:+ String c "".
Proof.
  induction l as [|d l IH]; [reflexivity|].
  change (String d (string_of_list_ascii (l ++ [c])) =
          String d (string_of_list_ascii l +:+ String c "")).
  f_equal. exact IH.
Qed.

Lemma countByte_of_list (c : ascii) (l : list ascii) :
  countByte c (string_of_list_ascii l) =
  length (List.filter (fun x => bool_decide (x = c)) l).
Proof. unfold countByte. rewrite list_ascii_of_string_of_list_ascii. reflexivity. Qed.

Lemma splitFrom_join (sep : ascii) (cur : list ascii) (s : string) :
  joinWith sep (splitFrom sep cur s) = string_of_list_ascii (rev cur) +:+ s.
Proof.
  revert cur. induction s as [|c s IH]; intros cur; cbn [splitFrom].
  - simpl. rewrite append_empty_r. reflexivity.
  - case_bool_decide as Hc.
    + subst c. pose proof (splitFrom_nonempty sep [] s) as Hne.
      specialize (IH []). simpl in IH.
      destruct (splitFrom sep [] s) as [|y rest]; [congruence|].
      cbn [joinWith]. cbn [joinWith] in IH. rewrite IH. reflexivity.
    + rewrite IH. cbn [rev]. rewrite string_of_list_ascii_snoc.
      apply append_String_assoc.
Qed.

Lemma splitFrom_length (sep : ascii) (cur : list ascii) (s : string) :
  length (splitFrom sep cur s) = S (countByte sep s).
Proof.
  revert cur. unfold countByte.
  induction s as [|c s IH]; intros cur; cbn [splitFrom list_ascii_of_string List.filter];
    [reflexivity|].
  case_bool_decide; cbn [length]; rewrite IH; reflexivity.
Qed.

Lemma splitFrom_segments (sep : ascii) (cur : list ascii) (s : string) :
  List.filter (fun x => bool_decide (x = sep)) cur = [] ->
  Forall (fun seg => countByte sep seg = 0%nat) (splitFrom sep cur s).
Proof.
  revert cur. induction s as [|c s IH]; intros cur Hcur; cbn [splitFrom].
  - constructor; [|constructor].
    rewrite countByte_of_list, List.filter_rev, Hcur. reflexivity.
  - case_bool_decide as Hc.
    + constructor; [|apply IH; reflexivity].
      rewrite countByte_of_list, List.filter_rev, Hcur. reflexivity.
    + apply IH. cbn [List.filter]. rewrite bool_decide_eq_false_2 by exact Hc.
      exact Hcur.
Qed.

(** X9. [Split] cuts a string at every separator byte and nowhere else:
    joining the segments with the separator gives the string back,
    there is one more segment than there are separators, and no segment
    contains the separator. *)
Theorem X9_Split_cuts_at_every_separator (s : string) (sep : ascii) :
  joinWith sep (Split s sep) = s /\
  length (Split s sep) = S (countByte sep s) /\
  Forall (fun seg => countByte sep seg = 0%nat) (Split s sep).
Proof.
  unfold Split. split; [|split].
  - rewrite splitFrom_join. reflexivity.
  - apply splitFrom_length.
  - apply splitFrom_segments. reflexivity.
Qed.

Lemma takeWhileb_In {A} (p : A -> bool) (l : list A) (x : A) :
  In x (takeWhileb p l) -> In x l /\ p x = true.
Proof.
  induction l as [|y l IH]; simpl; [tauto|].
  destruct (p y) eqn:Hy; [|intros []].
  intros [<-|Hin]; [split; [left; reflexivity | exact Hy]|].
  destruct (IH Hin) as [H1 H2]. split; [right; exact H1 | exact H2].
Qed.

Lemma flatPools_In (entries : list (string * LBConfig)) fqdn tp :
  In (fqdn, tp) (flatPools entries) ->
  exists config, In (fqdn, config) entries /\ In tp (poolsOf config).
Proof.
  unfold flatPools. rewrite in_flat_map. intros ([k config] & Hkv & Hin).
  cbn [fst snd] in Hin. apply in_map_iff in Hin.
  destruct Hin as (tp' & [= <- <-] & Htp). exists config. split; assumption.
Qed.

(** X10. Every call the write-back makes to the registry writer passes a
    service name and a stack name without delimiter, taken from the
    name of a pool of the outcome, and an endpoint identifier that is a
    key of the outcome. *)
Theorem X10_writer_arguments_come_from_the_outcome
    (w : World) (updatedFqdn : LBConfigs) (serviceName stackName fqdn : string) :
  In (serviceName, stackName, fqdn) (writerCalls (traceOf (writeBack w updatedFqdn))) ->
  countByte delimiter serviceName = 0%nat /\
  countByte delimiter stackName = 0%nat /\
  exists config tp,
    entries_of updatedFqdn !! fqdn = Some config /\
    In tp (poolsOf config) /\
    Split (Name tp) delimiter !! 0%nat = Some serviceName /\
    Split (Name tp) delimiter !! 1%nat = Some stackName.
Proof.
  destruct (writeBack_prefix w updatedFqdn) as [-> _].
  rewrite in_map_iff. intros ([f tp] & Heq & Hin).
  apply takeWhileb_In in Hin. destruct Hin as [Hin Htwo].
  cbn [fst snd] in Heq, Htwo. unfold writeOf in Heq. injection Heq as <- <- <-.
  apply flatPools_In in Hin. destruct Hin as (config & Hkv & Htp).
  apply list_elem_of_In in Hkv. rewrite rangeOver_perm in Hkv.
  apply elem_of_map_to_list in Hkv.
  pose proof (splitFrom_segments delimiter [] (Name tp) eq_refl) as Hseg.
  fold (Split (Name tp) delimiter) in Hseg.
  unfold hasTwoSegments in Htwo. apply Nat.leb_le in Htwo.
  destruct (Split (Name tp) delimiter) as [|p0 [|p1 rest]] eqn:Hsplit;
    simpl in Htwo; try lia.
  inversion Hseg as [|? ? H0 Hseg']; subst. inversion Hseg' as [|? ? H1 _]; subst.
  cbn [nth]. split; [exact H0|]. split; [exact H1|].
  exists config, tp. rewrite Hsplit. repeat split; assumption.
Qed.

Lemma X10_witness :
  let w := worldOf (Ok "v2") (5 * second)%Z (Ok snapshot2)
             (outcome2, None) (6 * second)%Z in
  countByte delimiter "svcC" = 0%nat /\
  countByte delimiter "stackX" = 0%nat /\
  exists config tp,
    entries_of outcome2 !! "lb1.example.com" = Some config /\
    In tp (poolsOf config) /\
    Split (Name tp) delimiter !! 0%nat = Some "svcC" /\
    Split (Name tp) delimiter !! 1%nat = Some "stackX".
Proof.
  intros w.
  apply (X10_writer_arguments_come_from_the_outcome w outcome2
           "svcC" "stackX" "lb1.example.com").
  vm_compute. right. right. left. reflexivity.
Defined.

(** *** Runs of several ticks *)

Lemma runTicks_cons (w : World) (ws : list World) (st : LoopState) :
  traceOf (runTicks (w :: ws) st) =
    traceOf (tick w st) ++ match stateOf (tick w st) with
                           | Some st1 => traceOf (runTicks ws st1)
                           | None => []
                           end /\
  stateOf (runTicks (w :: ws) st) =
    match stateOf (tick w st) with
    | Some st1 => stateOf (runTicks ws st1)
    | None => None
    end.
Proof. cbn [runTicks]. rewrite traceOf_bind, stateOf_bind. split; reflexivity. Qed.

Lemma last_cons_default {A} (x d : A) (l : list A) :
  List.last (x :: l) d = List.last l x.
Proof.
  revert x d. induction l as [|y l IH]; intros x d; [reflexivity|].
  change (List.last (x :: y :: l) d) with (List.last (y :: l) d).
  rewrite (IH y d), (IH y x). reflexivity.
Qed.

Lemma runTicks_provenance (ws : list World) (st st' : LoopState) :
  stateOf (runTicks ws st) = Some st' ->
  version st' = lastVersion (version st) ws /\
  metadataLBConfigsCached st' =
    List.last (providerCalls (traceOf (runTicks ws st))) (metadataLBConfigsCached st) /\
  (providerCalls (traceOf (runTicks ws st)) = [] -> lastUpdated st' = lastUpdated st).
Proof.
  revert st. induction ws as [|w ws IH]; intros st.
  - intros [= <-]. repeat split; reflexivity.
  - destruct (runTicks_cons w ws st) as [-> ->].
    destruct (tick_summary w st) as (Hp & _ & Hs). rewrite Hs.
    rewrite providerCalls_app, Hp.
    assert (Hnext : lastVersion (version st) (w :: ws) =
                    lastVersion (nextVersion w st) ws).
    { unfold lastVersion, nextVersion. cbn [fold_left]. reflexivity. }
    destruct (shouldDispatch w st) as [s|].
    + destruct (completes _); [|discriminate].
      intros Hrun. destruct (IH _ Hrun) as (Hv & Hc & _).
      cbn [version metadataLBConfigsCached] in Hv, Hc.
      split; [rewrite Hnext; exact Hv|]. split; [|discriminate].
      cbn [app]. rewrite last_cons_default. exact Hc.
    + intros Hrun. destruct (IH _ Hrun) as (Hv & Hc & Hl).
      cbn [afterCheck version metadataLBConfigsCached lastUpdated] in Hv, Hc, Hl.
      split; [rewrite Hnext; exact Hv|]. split; [exact Hc | exact Hl].
Qed.




(** X12. After a pass that handed a snapshot to the provider and ran to
    its end, whether the dispatch returned an error or not, and after
    any number of further ticks none of which called the provider, the
    same snapshot is handed to the provider again only on a tick that
    finds the version unchanged, and not before a full minute has
    passed since the end of that pass. *)
Theorem X12_same_snapshot_not_resent_within_a_minute
    (w1 : World) (ws : list World) (w2 : World)
    (st st1 st2 : LoopState) (s : LBConfigs) :
  stateOf (tick w1 st) = Some st1 ->
  providerCalls (traceOf (tick w1 st)) = [s] ->
  stateOf (runTicks ws st1) = Some st2 ->
  providerCalls (traceOf (runTicks ws st1)) = [] ->
  providerCalls (traceOf (tick w2 st2)) = [s] ->
  GetVersion w2 = Ok (version st2) /\
  (Minute <= nowSince w2 - nowFinal w1)%Z.
Proof.
  intros Hst Hp1 Hrun Hquiet Hp2.
  destruct (tick_summary w1 st) as (Hp & _ & Hs). rewrite Hp in Hp1. rewrite Hs in Hst.
  destruct (shouldDispatch w1 st) as [s1|]; [|discriminate].
  injection Hp1 as ->. destruct (completes _); [|discriminate].
  injection Hst as <-.
  destruct (runTicks_provenance ws _ st2 Hrun) as (_ & Hcache & Hlast).
  rewrite Hquiet in Hcache. specialize (Hlast Hquiet).
  cbn [List.last metadataLBConfigsCached lastUpdated] in Hcache, Hlast.
  destruct (tick_summary w2 st2) as (Hp' & _ & _).
  rewrite Hp' in Hp2. unfold shouldDispatch in Hp2. rewrite Hcache, Hlast in Hp2.
  destruct (GetVersion w2) as [v|]; [|discriminate].
  destruct (GetMetadataLBConfigs w2) as [s2|]; [|discriminate].
  case_bool_decide as Hv.
  - destruct (forceDue (nowSince w2) (nowFinal w1)) eqn:Hdue; [|discriminate].
    rewrite forceDue_elapsed in Hdue. apply Z.leb_le in Hdue.
    split; [congruence | exact Hdue].
  - destruct (DeepEqual s2 s) eqn:Heq; [discriminate|].
    injection Hp2 as ->. rewrite DeepEqual_refl in Heq. discriminate.
Qed.

Lemma X12_witness :
  let w1 := worldOf (Ok "v2") (5 * second)%Z (Ok snapshot2)
              (outcome2, None) (6 * second)%Z in
  let ws := [worldOf (Ok "v3") (30 * second)%Z (Ok snapshot2)
               (outcome2, None) (30 * second)%Z;
             worldOf (Err "timeout") (50 * second)%Z (Ok snapshot2)
               (outcome2, None) (50 * second)%Z] in
  let w2 := worldOf (Ok "v3") (66 * second)%Z (Ok snapshot2)
              (outcome2, None) (67 * second)%Z in
  GetVersion w2 = Ok "v3" /\ (Minute <= nowSince w2 - nowFinal w1)%Z.
Proof.
  intros w1 ws w2.
  apply (X12_same_snapshot_not_resent_within_a_minute w1 ws w2 settled
           {| version := "v2"; lastUpdated := (6 * second)%Z;
              metadataLBConfigsCached := snapshot2 |}
           {| version := "v3"; lastUpdated := (6 * second)%Z;
              metadataLBConfigsCached := snapshot2 |} snapshot2).
  - vm_compute. reflexivity.
  - vm_compute. reflexivity.
  - vm_compute. reflexivity.
  - vm_compute. reflexivity.
  - vm_compute. reflexivity.
Defined.

(** X13. The comparison of line 106 is an exact threshold: the force
    update is due exactly when at least 60 000 000 000 nanoseconds lie
    between [lastUpdated] and the clock reading, the saturation of
    [Time.Sub] and the conversion to minutes notwithstanding. *)
Theorem X13_force_update_due_after_exactly_one_minute (now last : Time) :
  forceDue now last = true <-> (60000000000 <= now - last)%Z.
Proof.
  rewrite forceDue_elapsed, Z.leb_le.
  change Minute with 60000000000%Z. reflexivity.
Qed.

(** X14. The comparison of line 127 holds exactly when the fetched
    snapshot and the cache are the same value: both nil or both not,
    the same keys, and under each key the same frontends and pools in
    the same order, nil and empty slices told apart. *)
Theorem X14_DeepEqual_is_equality (a b : LBConfigs) :
  DeepEqual a b = true <-> a = b.
Proof.
  unfold DeepEqual. split.
  - intros H. apply (deepEqualMap_spec _ deepEqualLBConfig_spec). exact H.
  - intros ->. apply (deepEqualMap_spec _ deepEqualLBConfig_spec). reflexivity.
Qed.

(** ** Properties of the startup *)

Lemma digitValue_range (c : ascii) :
  isDigit c = true -> (0 <= digitValue c <= 9)%Z.
Proof.
  unfold isDigit, digitValue. rewrite andb_true_iff, !Nat.leb_le. lia.
Qed.

Lemma decimalValue_ge (n : Z) (s : string) :
  (0 <= n)%Z -> allDigits s = true -> (n <= decimalValue n s)%Z.
Proof.
  revert n. induction s as [|c s IH]; intros n Hn; cbn [allDigits decimalValue]; [lia|].
  rewrite andb_true_iff. intros [Hc Hs].
  pose proof (digitValue_range c Hc) as Hd.
  specialize (IH (n * 10 + digitValue c)%Z ltac:(lia) Hs). lia.
Qed.

(** The scan of [ParseUint] yields the number the digits denote, and
    fails exactly when a byte is not a digit or that number does not
    fit 64 bits. *)
Lemma scanUint_spec (n : Z) (s : string) (m : Z) :
  (0 <= n <= maxUint64)%Z ->
  scanUint n s = Parsed m <->
  allDigits s = true /\ decimalValue n s = m /\ (m <= maxUint64)%Z.
Proof.
  revert n. induction s as [|c s IH]; intros n Hn; cbn [scanUint allDigits decimalValue].
  - split; [intros [= <-]; repeat split; lia | intros (_ & -> & _); reflexivity].
  - destruct (isDigit c) eqn:Hc; [|split; [discriminate | intros ([=] & _)]].
    pose proof (digitValue_range c Hc) as Hd. rewrite andb_true_l.
    assert (Hmax : maxUint64 = 18446744073709551615%Z) by reflexivity.
    assert (Hgrow : allDigits s = true ->
                    (n * 10 + digitValue c <= decimalValue (n * 10 + digitValue c) s)%Z).
    { apply decimalValue_ge. lia. }
    destruct (Z.leb_spec (maxUint64 / 10 + 1) n) as [Hcut|Hcut].
    + split; [discriminate|]. intros (Hs & <- & Hle). specialize (Hgrow Hs).
      rewrite Hmax in Hcut, Hle. change (18446744073709551615 / 10)%Z
        with 1844674407370955161%Z in Hcut. lia.
    + destruct (Z.ltb_spec maxUint64 (n * 10 + digitValue c)) as [Hover|Hfit].
      * split; [discriminate|]. intros (Hs & <- & Hle). specialize (Hgrow Hs). lia.
      * apply IH. lia.
Qed.

Ltac split_numeral sign digits :=
  exists sign, digits;
  split; [reflexivity|];
  split; [auto|];
  split; [discriminate|];
  split; [assumption|];
  split; [|assumption];
  first [ rewrite bool_decide_eq_true_2 by reflexivity
        | rewrite bool_decide_eq_false_2 by discriminate ];
  assumption.

(** X15. [LB_POLL_INTERVAL] is read as a decimal integer: [Atoi]
    accepts exactly an optional sign followed by one or more decimal
    digits whose signed value fits an int64, and yields that value;
    anything else (empty string, blanks, a unit suffix, a fraction, an
    underscore, a value out of range) is an error. *)
Theorem X15_Atoi_accepts_exactly_signed_decimals (s : string) (n : Z) :
  Atoi s = Parsed n <->
  exists sign digits,
    s = sign +:+ digits /\
    (sign = "" \/ sign = "+" \/ sign = "-") /\
    digits <> "" /\
    allDigits digits = true /\
    n = (if bool_decide (sign = "-") then - decimalValue 0 digits
         else decimalValue 0 digits)%Z /\
    (- 2 ^ 63 <= n <= 2 ^ 63 - 1)%Z.
Proof.
  assert (H0 : (0 <= 0 <= maxUint64)%Z) by (unfold maxUint64; lia).
  assert (Hscan : forall (neg : bool) (digits : string),
            digits <> "" ->
            match scanUint 0 digits with
            | NotParsed e => NotParsed e
            | Parsed un =>
                if negb neg && (2 ^ 63 <=? un)%Z then NotParsed ErrRange
                else if neg && (2 ^ 63 <? un)%Z then NotParsed ErrRange
                else Parsed (if neg then - un else un)%Z
            end = Parsed n <->
            allDigits digits = true /\
            n = (if neg then - decimalValue 0 digits else decimalValue 0 digits)%Z /\
            (- 2 ^ 63 <= n <= 2 ^ 63 - 1)%Z).
  { intros neg digits _.
    destruct (scanUint 0 digits) as [un|e] eqn:Hun.
    - apply (scanUint_spec 0 digits un H0) in Hun. destruct Hun as (Hd & Hv & Hle).
      pose proof (decimalValue_ge 0 digits ltac:(lia) Hd) as Hpos. rewrite Hv in *.
      destruct neg; cbn [negb andb].
      + destruct (Z.ltb_spec (2 ^ 63) un).
        * split; [discriminate | intros (_ & -> & Hr); lia].
        * split; [intros [= <-]; repeat split; [assumption | lia | lia]
                 | intros (_ & -> & _); reflexivity].
      + destruct (Z.leb_spec (2 ^ 63) un).
        * split; [discriminate | intros (_ & -> & Hr); lia].
        * split; [intros [= <-]; repeat split; [assumption | lia | lia]
                 | intros (_ & -> & _); reflexivity].
    - split; [discriminate|]. intros (Hd & Hn & Hr).
      assert (Hfit : (decimalValue 0 digits <= maxUint64)%Z)
        by (unfold maxUint64; destruct neg; lia).
      pose proof (proj2 (scanUint_spec 0 digits _ H0) (conj Hd (conj eq_refl Hfit))).
      congruence. }
  destruct s as [|c rest].
  - split; [discriminate|].
    intros (sign & digits & Hs & _ & Hne & _).
    destruct sign; [cbv beta iota delta [append] in Hs; congruence | discriminate].
  - cbn [Atoi]. destruct (decide (c = "-"%char)) as [-> | Hminus].
    + rewrite bool_decide_eq_true_2 by reflexivity. cbn [orb].
      destruct rest as [|d rest'].
      * split; [discriminate|].
        intros (sign & digits & Hs & Hsign & Hne & Hd & _).
        destruct Hsign as [-> | [-> | ->]]; cbv beta iota delta [append] in Hs.
        -- subst digits. discriminate.
        -- discriminate.
        -- injection Hs as <-. congruence.
      * rewrite (Hscan true (String d rest')) by discriminate. split.
        -- intros (Hd & Hn & Hr). split_numeral "-" (String d rest').
        -- intros (sign & digits & Hs & Hsign & Hne & Hd & Hn & Hr).
           destruct Hsign as [-> | [-> | ->]]; cbv beta iota delta [append] in Hs.
           ++ subst digits. discriminate.
           ++ discriminate.
           ++ injection Hs as <-. rewrite bool_decide_eq_true_2 in Hn by reflexivity.
              split; [assumption | split; assumption].
    + rewrite (bool_decide_eq_false_2 (c = "-"%char)) by exact Hminus. cbn [orb].
      destruct (decide (c = "+"%char)) as [-> | Hplus].
      * rewrite bool_decide_eq_true_2 by reflexivity.
        destruct rest as [|d rest'].
        -- split; [discriminate|].
           intros (sign & digits & Hs & Hsign & Hne & Hd & _).
           destruct Hsign as [-> | [-> | ->]]; cbv beta iota delta [append] in Hs.
           ++ subst digits. discriminate.
           ++ injection Hs as <-. congruence.
           ++ discriminate.
        -- rewrite (Hscan false (String d rest')) by discriminate. split.
           ++ intros (Hd & Hn & Hr). split_numeral "+" (String d rest').
           ++ intros (sign & digits & Hs & Hsign & Hne & Hd & Hn & Hr).
              destruct Hsign as [-> | [-> | ->]]; cbv beta iota delta [append] in Hs.
              ** subst digits. discriminate.
              ** injection Hs as <-.
                 rewrite bool_decide_eq_false_2 in Hn by discriminate.
                 split; [assumption | split; assumption].
              ** discriminate.
      * rewrite (bool_decide_eq_false_2 (c = "+"%char)) by exact Hplus.
        rewrite (Hscan false (String c rest)) by discriminate. split.
        -- intros (Hd & Hn & Hr). split_numeral "" (String c rest).
        -- intros (sign & digits & Hs & Hsign & Hne & Hd & Hn & Hr).
           destruct Hsign as [-> | [-> | ->]]; cbv beta iota delta [append] in Hs.
           ++ subst digits. rewrite bool_decide_eq_false_2 in Hn by discriminate.
              split; [assumption | split; assumption].
           ++ injection Hs as -> _. congruence.
           ++ injection Hs as -> _. congruence.
Qed.

Ltac setEnv_cases s :=
  unfold mainStart, setEnv, eventsOf, endOf;
  destruct (commandLineOk s) eqn:?Hcmd;
  destruct (debug s);
  destruct (bool_decide (logFile s = "")) eqn:?Hlog;
  try destruct (OpenFile s (logFile s)) as [[]|?] eqn:?Hopen;
  destruct (0 <? String.length (Getenv s "LB_POLL_INTERVAL"))%nat eqn:?Henv;
  try destruct (Atoi (Getenv s "LB_POLL_INTERVAL")) as [?n|?] eqn:?Hatoi;
  destruct (NewMetadataClient s) as [[]|?] eqn:?Hmeta;
  destruct (NewCattleClientFromEnvironment s) as [[]|?] eqn:?Hcattle;
  destruct (GetProvider s (providerName s)) as [[]|?] eqn:?Hprov;
  cbn [andThen note goes Fatalf negb app fst snd].

(** X16. [setEnv] gets to its end exactly when [flag.Parse] accepts the
    command line, the log file (if one is named) opens,
    [LB_POLL_INTERVAL] is unset or empty or parses, and the three
    clients are constructed; the poll interval is then the parsed
    number, or 1000 when the variable is unset or empty. It never
    panics. *)
Theorem X16_setEnv_succeeds_iff_every_step_does (s : Startup) (p : Z) :
  (endOf (setEnv s) = Goes p <->
   commandLineOk s = true /\
   (logFile s = "" \/ OpenFile s (logFile s) = Ok tt) /\
   (if (0 <? String.length (Getenv s "LB_POLL_INTERVAL"))%nat
    then Atoi (Getenv s "LB_POLL_INTERVAL") = Parsed p
    else p = defaultPollInterval) /\
   NewMetadataClient s = Ok tt /\
   NewCattleClientFromEnvironment s = Ok tt /\
   GetProvider s (providerName s) = Ok tt) /\
  endOf (setEnv s) <> Panics.
Proof.
  setEnv_cases s;
    try apply bool_decide_eq_true in Hlog;
    try apply bool_decide_eq_false in Hlog;
    (split; [|discriminate]);
    (split;
     [ intros H; try discriminate H; injection H as <-;
       repeat split; auto
     | intros (Hf & Hl & Hp & Hm & Hc & Hg);
       try discriminate Hf;
       try discriminate Hm; try discriminate Hc; try discriminate Hg;
       try discriminate Hp;
       try (destruct Hl as [Hl|Hl]; [contradiction | discriminate Hl]);
       try (injection Hp as ->); try (rewrite Hp); reflexivity ]).
Qed.

(** X17. [setEnv] stops at the first failure and constructs the clients
    in a fixed order. A command line that [flag.Parse] rejects ends the
    process first, before anything else is done and without a fatal
    log line. Otherwise a fatal log line is always the last event and
    ends the process; a log file that cannot be opened or a poll
    interval that cannot be parsed is fatal before any client is
    constructed, a failing metadata client before the Cattle client is
    constructed, a failing Cattle client before the provider is looked
    up. *)
Theorem X17_setEnv_stops_at_first_failure (s : Startup) :
  let metadata := CallNewMetadataClient in
  let cattle := CallNewCattleClient in
  let lookup := CallGetProvider (providerName s) in
  match endOf (setEnv s) with
  | Goes _ =>
      commandLineOk s = true /\
      List.filter isFatal (eventsOf (setEnv s)) = [] /\
      List.filter isClientCall (eventsOf (setEnv s)) = [metadata; cattle; lookup]
  | Exits =>
      (commandLineOk s = false /\
       eventsOf (setEnv s) = [FlagParse; FlagUsage]) \/
      (commandLineOk s = true /\
       exists pre e,
         eventsOf (setEnv s) = pre ++ [e] /\
         isFatal e = true /\
         List.filter isFatal pre = [] /\
         List.filter isClientCall pre =
           match e with
           | FatalMetadataClient _ => [metadata]
           | FatalCattleClient _ => [metadata; cattle]
           | FatalProvider _ _ => [metadata; cattle; lookup]
           | _ => []
           end)
  | Panics => False
  end.
Proof.
  cbv zeta. setEnv_cases s;
    first
      [ left; split; reflexivity
      | repeat split; reflexivity
      | right; split; [reflexivity|];
        match goal with
        | |- exists pre e, ?l = _ /\ _ =>
            exists (removelast l), (List.last l FlagParse)
        end;
        repeat split; reflexivity ].
Qed.

Lemma wrap64_small (z : Z) :
  (- 2 ^ 63 <= z < 2 ^ 63)%Z -> wrap64 z = z.
Proof.
  intros Hz. unfold wrap64. rewrite Z.mod_small by lia. lia.
Qed.

(** X18. Once [setEnv] has returned the poll interval [p], [main]
    starts the health check and creates the ticker. For
    0 < p <= 9223372036854 the ticker period is p milliseconds and the
    loop starts from version ["init"], the start time and an empty
    cache; for -9223372036854 <= p <= 0 (which [setEnv] accepts)
    [time.NewTicker] panics. *)
Theorem X18_ticker_period_is_poll_interval (s : Startup) (p : Z) :
  endOf (setEnv s) = Goes p ->
  In GoStartHealthcheck (eventsOf (mainStart s)) /\
  ((0 < p <= 9223372036854)%Z ->
   endOf (mainStart s) = Goes ((p * 1000000)%Z, initState (startTime s)) /\
   In (CallNewTicker (p * 1000000)%Z) (eventsOf (mainStart s))) /\
  ((- 9223372036854 <= p <= 0)%Z -> endOf (mainStart s) = Panics).
Proof.
  unfold mainStart, endOf, eventsOf.
  destruct (setEnv s) as [tr [q| |]]; cbn [snd]; intros [= ->].
  cbn [andThen note goes NewTicker fst snd app].
  split; [|split].
  - destruct (_ <=? _)%Z; cbn [fst]; apply in_cons, in_or_app; right; left; reflexivity.
  - intros Hp. unfold Millisecond. rewrite wrap64_small by lia.
    destruct (Z.leb_spec (p * 1000000) 0) as [Hle|_]; [lia|]. cbn [fst snd].
    split; [reflexivity|].
    apply in_cons, in_or_app. right. right. left. reflexivity.
  - intros Hp. unfold Millisecond. rewrite wrap64_small by lia.
    destruct (Z.leb_spec (p * 1000000) 0) as [_|Hgt]; [reflexivity | lia].
Qed.

Lemma X18_witness :
  endOf (mainStart (startup1 "250")) = Goes (250000000%Z, initState 0%Z) /\
  In (CallNewTicker 250000000%Z) (eventsOf (mainStart (startup1 "250"))).
Proof.
  apply (proj1 (proj2 (X18_ticker_period_is_poll_interval (startup1 "250") 250%Z
                         eq_refl))).
  lia.
Defined.

(** X19. A fatal error in [setEnv] ends the process before the health
    check is started and before the ticker is created. *)
Theorem X19_fatal_startup_error_starts_nothing (s : Startup) :
  endOf (setEnv s) = Exits ->
  endOf (mainStart s) = Exits /\
  eventsOf (mainStart s) = InfoStarting :: eventsOf (setEnv s) /\
  ~ In GoStartHealthcheck (eventsOf (mainStart s)).
Proof.
  intros Hexit.
  assert (Hno : ~ In GoStartHealthcheck (eventsOf (setEnv s))).
  { clear Hexit. setEnv_cases s; cbn [In]; intuition discriminate. }
  revert Hexit Hno. unfold mainStart, endOf, eventsOf.
  destruct (setEnv s) as [tr [q| |]]; cbn [snd fst]; intros [=] Hno.
  cbn [andThen note fst snd app].
  split; [reflexivity|]. split; [reflexivity|].
  intros [Hin|Hin]; [discriminate | exact (Hno Hin)].
Qed.

Lemma X19_witness :
  endOf (mainStart (startup1 "1s")) = Exits /\
  eventsOf (mainStart (startup1 "1s")) = InfoStarting :: eventsOf (setEnv (startup1 "1s")) /\
  ~ In GoStartHealthcheck (eventsOf (mainStart (startup1 "1s"))).
Proof.
  apply (X19_fatal_startup_error_starts_nothing (startup1 "1s")).
  reflexivity.
Defined.

(** X20. An error returned by the provider dispatch changes nothing but
    the log: the tick makes the registry-writer calls of the write-back
    of the returned outcome and ends as it would with the same outcome
    and no error (in the same state, or in the same panic). When every
    pool name of the outcome has a delimiter, every pool gets its
    writer call and the tick ends with the cache replaced by the
    fetched snapshot. *)
Theorem X20_dispatch_error_changes_nothing_but_the_log
    (w : World) (st : LoopState) (s updatedFqdn : LBConfigs) (e : error) :
  providerCalls (traceOf (tick w st)) = [s] ->
  UpdateProviderLBConfigs w s = (updatedFqdn, Some e) ->
  writerCalls (traceOf (tick w st)) = writerCalls (traceOf (writeBack w updatedFqdn)) /\
  (forall st', stateOf (tick w st) = Some st' -> metadataLBConfigsCached st' = s) /\
  (indexable updatedFqdn = true ->
     exists st',
       stateOf (tick w st) = Some st' /\
       metadataLBConfigsCached st' = s /\
       writerCalls (traceOf (tick w st)) =
         allWrites (rangeOver (rangeOrder w) (entries_of updatedFqdn))) /\
  (let w0 := withProviderResult w (updatedFqdn, None) in
   stateOf (tick w st) = stateOf (tick w0 st) /\
   writerCalls (traceOf (tick w st)) = writerCalls (traceOf (tick w0 st))).
Proof.
  intros Hcalls Hprov.
  destruct (tick_dispatched_inv w st s Hcalls)
    as (tr & v & u & f & Hc & Huf & Hcfg & Hgate & Hp & Hw & Hs).
  pose proof (tick_dispatch w st _ _ _ _ Hc s updatedFqdn (Some e) Huf Hcfg Hgate Hprov)
    as Ht.
  pose proof (tick_dispatch (withProviderResult w (updatedFqdn, None)) st _ _ _ _
                Hc s updatedFqdn None Huf Hcfg Hgate eq_refl) as Ht0.
  change (writeBack (withProviderResult w (updatedFqdn, None)) updatedFqdn)
    with (writeBack w updatedFqdn) in Ht0.
  change (nowFinal (withProviderResult w (updatedFqdn, None))) with (nowFinal w) in Ht0.
  destruct (dispatch_trace tr s (Some e) (traceOf (writeBack w updatedFqdn)) Hp Hw Hs
              (writeBack_quiet w updatedFqdn)) as (_ & Hwe & _).
  destruct (dispatch_trace tr s None (traceOf (writeBack w updatedFqdn)) Hp Hw Hs
              (writeBack_quiet w updatedFqdn)) as (_ & Hw0 & _).
  assert (Hstate : stateOf (tick w st) =
            match stateOf (writeBack w updatedFqdn) with
            | Some _ => Some {| version := v;
                                lastUpdated := nowFinal w;
                                metadataLBConfigsCached := s |}
            | None => None
            end) by (rewrite Ht; reflexivity).
  assert (Hwriter : writerCalls (traceOf (tick w st)) =
            writerCalls (traceOf (writeBack w updatedFqdn)))
    by (rewrite Ht; exact Hwe).
  split; [exact Hwriter|]. split; [|split].
  - intros st'. rewrite Hstate.
    destruct (stateOf (writeBack w updatedFqdn)); [|discriminate].
    intros [= <-]. reflexivity.
  - intros Hidx. destruct (writeBack_indexable w updatedFqdn Hidx) as [Hst Hall].
    rewrite Hstate, Hst, Hwriter, Hall. eexists. repeat split; reflexivity.
  - cbv zeta. rewrite Hstate, Hwriter, Ht0. split; [reflexivity|].
    symmetry. exact Hw0.
Qed.

Lemma X20_witness :
  let w := withWriter (worldOf (Ok "v2") (5 * second)%Z (Ok snapshot2)
                         (outcome2, Some "provider failed") (6 * second)%Z)
                      flakyWriter in
  exists st',
    stateOf (tick w settled) = Some st' /\
    metadataLBConfigsCached st' = snapshot2 /\
    writerCalls (traceOf (tick w settled)) =
      allWrites (rangeOver (rangeOrder w) (entries_of outcome2)).
Proof.
  intros w.
  apply (X20_dispatch_error_changes_nothing_but_the_log
           w settled snapshot2 outcome2 "provider failed").
  - vm_compute. reflexivity.
  - reflexivity.
  - vm_compute. reflexivity.
Defined.
